(** * ParticleBackground: the animated canvas background

    A shallow embedding of [src/components/ParticleBackground.tsx].

    Numbers.  A JavaScript [number] is read as a real number: the
    arithmetic of the component ([+], [-], [*], [/], [Math.sqrt],
    [Math.min], [Math.sin], [<], [>]) is the arithmetic of [R], without
    rounding, infinities or NaN.  [canvas.width], [canvas.height] and
    [window.innerWidth] are DOM integers and are kept in [Z], injected
    with [IZR] where the code mixes them with numbers.  A division by
    zero, NaN or an infinity in JavaScript, means nothing here: the one
    statement that divides by a canvas dimension assumes it positive.

    Effects.  The 2D context is a log of the shapes painted on it;
    [Math.random] is an oracle [random : nat -> R] read at an index that
    the initialisers thread through; the closure variables of the effect
    ([particles], [waves], [time], [mouse], the canvas size) are the
    fields of one record [Sim], and the browser's callbacks
    ([mousemove], [resize], an animation frame) are the events of a step
    function on it. *)

From Stdlib Require Import Reals ZArith List String Bool Lra Lia.
Import ListNotations.

Local Open Scope R_scope.

(** ** Data model *)

(** [type AnimationType = 'network' | 'waves' | 'dots'] *)
Inductive AnimationType : Set := network | waves | dots.

(** [const mouse = { x: undefined, y: undefined, radius: 150 }]:
    [None] is [undefined]. *)
Record Mouse : Type := mkMouse {
  mouse_x : option R;
  mouse_y : option R;
  mouse_radius : R
}.

Definition mouse_init : Mouse :=
  {| mouse_x := None; mouse_y := None; mouse_radius := 150 |}.

(** [handleMouseMove]: both coordinates are stored verbatim. *)
Definition handleMouseMove (clientX clientY : R) (m : Mouse) : Mouse :=
  {| mouse_x := Some clientX; mouse_y := Some clientY;
     mouse_radius := mouse_radius m |}.

(** The fields of [class Particle]. *)
Record Particle : Type := mkParticle {
  x : R;
  y : R;
  baseRadius : R;
  radius : R;
  color : string;
  dx : R;
  dy : R;
  baseX : R;
  baseY : R;
  density : R
}.

(** The objects pushed by [initWaves]. *)
Record Wave : Type := mkWave {
  timeModifier : R;
  baseAmplitude : R;
  amplitude : R;
  wavelength : R;
  wave_color : string;
  yOffset : R
}.

(** What reaches the 2D context, one constructor per painted shape.
    [strokeLine] keeps the two parts of the template string
    [`${lineColor}${opacityValue})`] apart: the colour prefix and the
    opacity. *)
Inductive CtxOp : Type :=
| clearRect (x0 y0 w h : R)
| fillArc (cx cy r : R) (fillStyle : string)
| strokeLine (lineColor : string) (opacityValue lineWidth : R)
             (x1 y1 x2 y2 : R)
| fillPath (fillStyle : string) (start : R * R) (points : list (R * R)).

(** The two palette colours of the particles, and the two prefixes of
    the connection lines. *)
Definition purple : string := "rgba(123, 62, 240, 0.85)".
Definition cyan : string := "rgba(106, 236, 255, 0.85)".
Definition line_purple : string := "rgba(123, 62, 240, ".
Definition line_cyan : string := "rgba(106, 236, 255, ".

(** ** Comparisons and truthiness *)

(** [a < b] on numbers, as a boolean. *)
Definition ltb (a b : R) : bool := if Rlt_dec a b then true else false.
(** [a > b] on numbers. *)
Definition gtb (a b : R) : bool := ltb b a.

(** The truthiness of a [number | undefined]: [undefined] and [0] are
    falsy (there is no NaN among the reals). *)
Definition truthy (v : option R) : bool :=
  match v with
  | None => false
  | Some n => if Req_dec_T n 0 then false else true
  end.

(** [Math.sqrt(a ** 2 + b ** 2)], the distance of the component. *)
Definition hypot (a b : R) : R := sqrt (a * a + b * b).

(** ** Particles *)

(** [new Particle(x, y, dx, dy, radius, color)]; [rnd] is the value of
    the [Math.random()] call of the constructor. *)
Definition newParticle (x0 y0 dx0 dy0 radius0 : R) (color0 : string)
  (rnd : R) : Particle :=
  {| x := x0; y := y0; baseRadius := radius0; radius := radius0;
     color := color0; dx := dx0; dy := dy0;
     baseX := x0; baseY := y0; density := rnd * 30 + 1 |}.

(** [Particle.draw] *)
Definition draw (p : Particle) : CtxOp :=
  fillArc (x p) (y p) (radius p) (color p).

Section Component.

(** The prop of the component, captured by every closure. *)
Variable type : AnimationType.

(** [random k] is the value of the [k]-th call of [Math.random()]. *)
Variable random : nat -> R.

Section Frame.

(** [canvas.width], [canvas.height] and [mouse], as the closures find
    them when they run. *)
Variables canvas_width canvas_height : Z.
Variable mouse : Mouse.

(** The first two statements of [update]: the velocity is negated on
    an axis when the disc sticks out of the canvas on that axis. *)
Definition bounce_dx (p : Particle) : R :=
  if gtb (x p + radius p) (IZR canvas_width) || ltb (x p - radius p) 0
  then - dx p else dx p.

Definition bounce_dy (p : Particle) : R :=
  if gtb (y p + radius p) (IZR canvas_height) || ltb (y p - radius p) 0
  then - dy p else dy p.

(** [update] up to [this.y += this.dy]. *)
Definition advance (p : Particle) : Particle :=
  let dx1 := bounce_dx p in
  let dy1 := bounce_dy p in
  {| x := x p + dx1; y := y p + dy1;
     baseRadius := baseRadius p; radius := radius p; color := color p;
     dx := dx1; dy := dy1;
     baseX := baseX p; baseY := baseY p; density := density p |}.

(** The block [// Mouse interaction] of [update], entered with the
    pointer at [(mx, my)]. *)
Definition interact (mx my : R) (p : Particle) : Particle :=
  let dxMouse := mx - x p in
  let dyMouse := my - y p in
  let distance := hypot dxMouse dyMouse in
  match type with
  | network =>
      if ltb distance (mouse_radius mouse) then
        {| x := x p - dxMouse / 20; y := y p - dyMouse / 20;
           baseRadius := baseRadius p; radius := radius p;
           color := color p; dx := dx p; dy := dy p;
           baseX := baseX p; baseY := baseY p; density := density p |}
      else p
  | dots =>
      if ltb distance (mouse_radius mouse) then
        {| x := x p; y := y p;
           baseRadius := baseRadius p;
           radius := Rmin (baseRadius p * 3)
                       (baseRadius p + (mouse_radius mouse - distance) / 10);
           color := color p; dx := dx p; dy := dy p;
           baseX := baseX p; baseY := baseY p; density := density p |}
      else if gtb (radius p) (baseRadius p) then
        {| x := x p; y := y p;
           baseRadius := baseRadius p;
           radius := radius p - 0.1;
           color := color p; dx := dx p; dy := dy p;
           baseX := baseX p; baseY := baseY p; density := density p |}
      else p
  | waves => p
  end.

(** [Particle.update], without its last statement [this.draw()]. *)
Definition update (p : Particle) : Particle :=
  let p1 := advance p in
  match mouse_x mouse, mouse_y mouse with
  | Some mx, Some my => interact mx my p1
  | _, _ => p1
  end.

(** ** Initialisation of the particles *)

(** [particleCount], from [window.innerWidth]. *)
Definition particleCount (innerWidth : Z) : nat :=
  let isMobile := (innerWidth <? 768)%Z in
  match type with
  | network => if isMobile then 40%nat else 80%nat
  | _ => if isMobile then 60%nat else 180%nat
  end.

Definition speed : R :=
  match type with dots => 0.2 | _ => 0.4 end.

(** The body of the [for] loop of [initParticles] at index [i], the
    next unread random being [random k]; it reads six of them, the
    last one in the constructor. *)
Definition makeParticle (i k : nat) : Particle :=
  let radius0 :=
    match type with
    | network => random k * 2 + 1
    | _ => random k * 2.5 + 1
    end in
  let x0 := random (k + 1) * (IZR canvas_width - radius0 * 2) + radius0 in
  let y0 := random (k + 2) * (IZR canvas_height - radius0 * 2) + radius0 in
  let dx0 := (random (k + 3) - 0.5) * speed in
  let dy0 := (random (k + 4) - 0.5) * speed in
  let color0 := if (i mod 3 =? 0)%nat then purple else cyan in
  newParticle x0 y0 dx0 dy0 radius0 color0 (random (k + 5)).

(** [n] iterations of the loop from index [i]; [particles.push]
    appends. *)
Fixpoint initParticles_loop (n i k : nat) (particles : list Particle)
  : list Particle * nat :=
  match n with
  | O => (particles, k)
  | S n' =>
      initParticles_loop n' (S i) (k + 6)
        (particles ++ [makeParticle i k])
  end.

(** [initParticles]: the array is emptied first. *)
Definition initParticles (innerWidth : Z) (k : nat)
  : list Particle * nat :=
  initParticles_loop (particleCount innerWidth) 0 k [].

(** ** Connection lines *)

(** The condition of [lineColor], with [&&] on truthiness. *)
Definition pointer_near (pa : Particle) : bool :=
  truthy (mouse_x mouse) && truthy (mouse_y mouse) &&
  match mouse_x mouse, mouse_y mouse with
  | Some mx, Some my =>
      ltb (hypot (mx - x pa) (my - y pa)) (mouse_radius mouse)
  | _, _ => false
  end.

Definition lineColor (pa : Particle) : string :=
  if pointer_near pa then line_purple else line_cyan.

Definition connectDistance : R := IZR canvas_width / 8.

(** [opacityValue = 1 - (distance / connectDistance)] *)
Definition opacity (distance : R) : R := 1 - distance / connectDistance.

(** The body of the inner loop of [connect]. *)
Definition connect_pair (pa pb : Particle) : list CtxOp :=
  let distance := hypot (x pa - x pb) (y pa - y pb) in
  if ltb distance connectDistance then
    [strokeLine (lineColor pa) (opacity distance) 1.2
       (x pa) (y pa) (x pb) (y pb)]
  else [].

(** [connect]: [a] runs over the indices, [b] from [a] on. *)
Definition connect (particles : list Particle) : list CtxOp :=
  flat_map (fun a =>
    flat_map (fun b =>
      match nth_error particles a, nth_error particles b with
      | Some pa, Some pb => connect_pair pa pb
      | _, _ => []
      end)
      (seq a (List.length particles - a)))
    (seq 0 (List.length particles)).

(** ** Waves *)

Definition wave_colors (isDarkMode : bool) : list string :=
  if isDarkMode
  then ["rgba(123, 62, 240, 0.5)"; "rgba(106, 236, 255, 0.5)";
        "rgba(123, 62, 240, 0.35)"]%string
  else ["rgba(123, 62, 240, 0.4)"; "rgba(106, 236, 255, 0.4)";
        "rgba(123, 62, 240, 0.25)"]%string.

(** One wave per colour; the object literal reads five randoms. *)
Fixpoint initWaves_loop (colors : list string) (k : nat)
  (waves : list Wave) : list Wave * nat :=
  match colors with
  | [] => (waves, k)
  | c :: colors' =>
      initWaves_loop colors' (k + 5)
        (waves ++
         [{| timeModifier := random k * 0.4 + 0.6;
             baseAmplitude := random (k + 1) * 60 + 50;
             amplitude := random (k + 2) * 60 + 50;
             wavelength := random (k + 3) * 200 + 250;
             wave_color := c;
             yOffset := random (k + 4) * IZR canvas_height / 4 |}])
  end.

Definition initWaves (isDarkMode : bool) (k : nat) : list Wave * nat :=
  initWaves_loop (wave_colors isDarkMode) k [].

(** The [// Mouse interaction for waves] of [drawWaves]. *)
Definition wave_interact (index : nat) (wave : Wave) : Wave :=
  match mouse_y mouse with
  | Some my =>
      let influence := my / IZR canvas_height * 2 - 1 in
      {| timeModifier := timeModifier wave;
         baseAmplitude := baseAmplitude wave;
         amplitude := baseAmplitude wave + influence * 20 * (INR index + 1);
         wavelength := wavelength wave;
         wave_color := wave_color wave;
         yOffset := yOffset wave |}
  | None => wave
  end.

(** The path filled for one wave at clock [time]. *)
Definition wave_path (time : R) (wave : Wave) : CtxOp :=
  fillPath (wave_color wave) (0, IZR canvas_height / 2)
    (map (fun i =>
            (INR i,
             sin (INR i / wavelength wave + time * timeModifier wave)
             * amplitude wave + IZR canvas_height / 2
             + yOffset wave - 150))
         (seq 0 (Z.to_nat canvas_width))
     ++ [(IZR canvas_width, IZR canvas_height); (0, IZR canvas_height)]).

(** [waves.forEach((wave, index) => ...)] from [index] on, at the
    already advanced clock. *)
Fixpoint drawWaves_from (index : nat) (time : R) (waves : list Wave)
  : list Wave * list CtxOp :=
  match waves with
  | [] => ([], [])
  | wave :: rest =>
      let wave1 := wave_interact index wave in
      let (rest1, ops) := drawWaves_from (S index) time rest in
      (wave1 :: rest1, wave_path time wave1 :: ops)
  end.

(** [drawWaves]: the new clock, the waves and what was painted. *)
Definition drawWaves (time : R) (waves : list Wave)
  : R * list Wave * list CtxOp :=
  let time1 := time + 0.015 in
  let (waves1, ops) := drawWaves_from 0 time1 waves in
  (time1, waves1, ops).

(** [particles.forEach(p => p.update())]: every particle is updated
    and then paints itself. *)
Definition update_all (particles : list Particle)
  : list Particle * list CtxOp :=
  let particles1 := map update particles in
  (particles1, map draw particles1).

End Frame.

(** ** The mounted effect as a state machine *)

(** What the closures of the effect share. [ctx] is everything painted
    so far, oldest first; [rng] counts the calls of [Math.random]. *)
Record Sim : Type := mkSim {
  sim_width : Z;
  sim_height : Z;
  sim_particles : list Particle;
  sim_waves : list Wave;
  sim_time : R;
  sim_mouse : Mouse;
  sim_ctx : list CtxOp;
  sim_rng : nat
}.

(** What [resizeCanvas] and [initWaves] read from the page. *)
Record Window : Type := mkWindow {
  innerWidth : Z;
  innerHeight : Z;
  parentHeight : option Z;
  isDarkMode : bool
}.

(** The state when the effect starts, on a canvas of the given size. *)
Definition sim_init (w h : Z) : Sim :=
  {| sim_width := w; sim_height := h;
     sim_particles := []; sim_waves := []; sim_time := 0;
     sim_mouse := mouse_init; sim_ctx := []; sim_rng := 0 |}.

(** [resizeCanvas] *)
Definition resizeCanvas (win : Window) (s : Sim) : Sim :=
  let w := innerWidth win in
  let h := match parentHeight win with
           | Some ph => if (0 <? ph)%Z then ph else innerHeight win
           | None => innerHeight win
           end in
  match type with
  | waves =>
      let (ws, k) := initWaves h (isDarkMode win) (sim_rng s) in
      {| sim_width := w; sim_height := h;
         sim_particles := sim_particles s; sim_waves := ws;
         sim_time := sim_time s; sim_mouse := sim_mouse s;
         sim_ctx := sim_ctx s; sim_rng := k |}
  | _ =>
      let (ps, k) := initParticles w h (innerWidth win) (sim_rng s) in
      {| sim_width := w; sim_height := h;
         sim_particles := ps; sim_waves := sim_waves s;
         sim_time := sim_time s; sim_mouse := sim_mouse s;
         sim_ctx := sim_ctx s; sim_rng := k |}
  end.

(** One run of [animate]. *)
Definition animate (s : Sim) : Sim :=
  let w := sim_width s in
  let h := sim_height s in
  let m := sim_mouse s in
  let clear := clearRect 0 0 (IZR w) (IZR h) in
  match type with
  | network =>
      let (ps, ops) := update_all w h m (sim_particles s) in
      {| sim_width := w; sim_height := h;
         sim_particles := ps; sim_waves := sim_waves s;
         sim_time := sim_time s; sim_mouse := m;
         sim_ctx := sim_ctx s ++ clear :: ops ++ connect w m ps;
         sim_rng := sim_rng s |}
  | dots =>
      let (ps, ops) := update_all w h m (sim_particles s) in
      {| sim_width := w; sim_height := h;
         sim_particles := ps; sim_waves := sim_waves s;
         sim_time := sim_time s; sim_mouse := m;
         sim_ctx := sim_ctx s ++ clear :: ops;
         sim_rng := sim_rng s |}
  | waves =>
      let '(t, ws, ops) := drawWaves w h m (sim_time s) (sim_waves s) in
      {| sim_width := w; sim_height := h;
         sim_particles := sim_particles s; sim_waves := ws;
         sim_time := t; sim_mouse := m;
         sim_ctx := sim_ctx s ++ clear :: ops;
         sim_rng := sim_rng s |}
  end.

(** The callbacks the browser may run while the effect is mounted. *)
Inductive Event : Type :=
| MouseMove (clientX clientY : R)
| Resize (win : Window)
| Frame.

Definition step (s : Sim) (e : Event) : Sim :=
  match e with
  | MouseMove cx cy =>
      {| sim_width := sim_width s; sim_height := sim_height s;
         sim_particles := sim_particles s; sim_waves := sim_waves s;
         sim_time := sim_time s;
         sim_mouse := handleMouseMove cx cy (sim_mouse s);
         sim_ctx := sim_ctx s; sim_rng := sim_rng s |}
  | Resize win => resizeCanvas win s
  | Frame => animate s
  end.

Definition run (s : Sim) (events : list Event) : Sim :=
  fold_left step events s.

(** [n] successive updates of one particle, canvas and pointer held
    fixed. *)
Fixpoint frames (w h : Z) (m : Mouse) (n : nat) (p : Particle)
  : Particle :=
  match n with
  | O => p
  | S n' => frames w h m n' (update w h m p)
  end.

End Component.

(** ** The effect, mounted and cleaned up *)

(** What the browser holds for one run of the effect: the state of its
    closures, whether its two listeners are registered on [window],
    whether [animationFrameId] names a frame still to come, and whether
    the [setTimeout(resizeCanvas, 100)] of the set-up has yet to run. *)
Record Effect : Type := mkEffect {
  eff_sim : Sim;
  mousemove_listener : bool;
  resize_listener : bool;
  frame_requested : bool;
  timeout_pending : bool
}.

(** The body of the effect on a canvas of the given size: nothing without
    a canvas or without a 2D context; otherwise both listeners, the
    delayed [resizeCanvas], and a first [animate()], which requests the
    next frame. *)
Definition mount (ty : AnimationType) (canvas ctx : bool) (w h : Z)
  : option Effect :=
  if canvas then
    if ctx then
      Some {| eff_sim := animate ty (sim_init w h);
              mousemove_listener := true; resize_listener := true;
              frame_requested := true; timeout_pending := true |}
    else None
  else None.

(** What can happen next: the pointer moves, the window is resized, a
    display refresh is due, the 100 ms have passed (the last two with the
    page as [resizeCanvas] would read it), or React runs the clean-up
    returned by the effect. *)
Inductive Browser : Type :=
| PointerMoves (clientX clientY : R)
| WindowResizes (win : Window)
| RefreshDue
| TimeoutDue (win : Window)
| CleanUp.

(** The browser calls a listener while it is registered, [animate] while
    a frame is requested (and [animate] requests the next one), the
    delayed [resizeCanvas] once; the clean-up cancels the frame and
    removes the two listeners. *)
Definition deliver (ty : AnimationType) (rnd : nat -> R) (e : Effect)
  (b : Browser) : Effect :=
  match b with
  | PointerMoves cx cy =>
      if mousemove_listener e then
        {| eff_sim := step ty rnd (eff_sim e) (MouseMove cx cy);
           mousemove_listener := true;
           resize_listener := resize_listener e;
           frame_requested := frame_requested e;
           timeout_pending := timeout_pending e |}
      else e
  | WindowResizes win =>
      if resize_listener e then
        {| eff_sim := step ty rnd (eff_sim e) (Resize win);
           mousemove_listener := mousemove_listener e;
           resize_listener := true;
           frame_requested := frame_requested e;
           timeout_pending := timeout_pending e |}
      else e
  | RefreshDue =>
      if frame_requested e then
        {| eff_sim := step ty rnd (eff_sim e) Frame;
           mousemove_listener := mousemove_listener e;
           resize_listener := resize_listener e;
           frame_requested := true;
           timeout_pending := timeout_pending e |}
      else e
  | TimeoutDue win =>
      if timeout_pending e then
        {| eff_sim := resizeCanvas ty rnd win (eff_sim e);
           mousemove_listener := mousemove_listener e;
           resize_listener := resize_listener e;
           frame_requested := frame_requested e;
           timeout_pending := false |}
      else e
  | CleanUp =>
      {| eff_sim := eff_sim e;
         mousemove_listener := false; resize_listener := false;
         frame_requested := false;
         timeout_pending := timeout_pending e |}
  end.

Definition deliver_all (ty : AnimationType) (rnd : nat -> R) (e : Effect)
  (bs : list Browser) : Effect :=
  fold_left (deliver ty rnd) bs e.

(** ** The vocabulary of the statements *)

(** The coordinates of the last [mousemove] among the events. *)
Fixpoint last_move (events : list Event) : option (R * R) :=
  match events with
  | [] => None
  | e :: rest =>
      match last_move rest, e with
      | Some c, _ => Some c
      | None, MouseMove cx cy => Some (cx, cy)
      | None, _ => None
      end
  end.

(** No delayed [resizeCanvas] and no clean-up among what happens. *)
Definition no_timeout (bs : list Browser) : Prop :=
  forall win, ~ In (TimeoutDue win) bs.

Definition no_cleanup (bs : list Browser) : Prop := ~ In CleanUp bs.


(** Every [resize] among the events finds a window of positive height. *)
Definition tall_windows (events : list Event) : Prop :=
  forall win, In (Resize win) events -> (0 < innerHeight win)%Z.


(** The disc of [p] lies within the canvas on both axes. *)
Definition in_bounds (w h : Z) (p : Particle) : Prop :=
  (radius p <= x p <= IZR w - radius p) /\
  (radius p <= y p <= IZR h - radius p).

(** The pointer has not been seen: [update] skips its mouse block. *)
Definition pointer_absent (m : Mouse) : Prop :=
  mouse_x m = None \/ mouse_y m = None.

(** One axis of [in_bounds]. *)
Definition inside (hi pos r : R) : Prop := r <= pos <= hi - r.

(** What [advance] keeps true on one axis: [pos] is within its bounds,
    or the position before, [pos - v], was and the last step left them. *)
Definition axis_inv (hi pos r v : R) : Prop :=
  inside hi pos r \/ inside hi (pos - v) r.

(** The claim's words for C4: the leading edge, the one on the side the
    particle moves to, would be out of [0, hi] once the position has
    advanced by the velocity [v] as it stands. *)
Definition leading_edge_exits (hi pos r v : R) : Prop :=
  (0 < v /\ hi < pos + v + r) \/ (v < 0 /\ pos + v - r < 0).

(** The test of the code: an edge of the disc is out of [0, hi] at the
    position the frame starts from. *)
Definition sticks_out (hi pos r : R) : Prop :=
  hi < pos + r \/ pos - r < 0.

(** The pointer of the scenario, after one [mousemove] to (400, 300). *)
Definition scenario_mouse : Mouse := handleMouseMove 400 300 mouse_init.

(** A dot of base radius 2 that is at most [k] velocity steps of 0.1
    away from (410, 300) on each axis. *)
Definition near_start (k : nat) (p : Particle) : Prop :=
  (- (0.1 * INR k) <= x p - 410 <= 0.1 * INR k) /\
  (- (0.1 * INR k) <= y p - 300 <= 0.1 * INR k) /\
  (- 0.1 <= dx p <= 0.1) /\ (- 0.1 <= dy p <= 0.1) /\
  baseRadius p = 2.

(** The waves that [drawWaves] leaves behind. *)
Definition drawWaves_waves (w h : Z) (m : Mouse) (t : R) (ws : list Wave)
  : list Wave :=
  snd (fst (drawWaves w h m t ws)).

(** No [mousemove] among the events. *)
Definition no_mouse_move (events : list Event) : Prop :=
  forall cx cy, ~ In (MouseMove cx cy) events.

(** [s] with another particle array. *)
Definition with_particles (ps : list Particle) (s : Sim) : Sim :=
  {| sim_width := sim_width s; sim_height := sim_height s;
     sim_particles := ps; sim_waves := sim_waves s;
     sim_time := sim_time s; sim_mouse := sim_mouse s;
     sim_ctx := sim_ctx s; sim_rng := sim_rng s |}.

(** The random numbers are those of [Math.random]: in [0, 1). *)
Definition unit_random (rnd : nat -> R) : Prop := forall k, 0 <= rnd k < 1.

(** What [update] never writes: the fields of a particle other than
    position, velocity and radius. *)
Definition identity (p : Particle) : R * string * R * R * R :=
  (baseRadius p, color p, baseX p, baseY p, density p).

(** No [resize] among the events. *)
Definition no_resize (events : list Event) : Prop :=
  forall win, ~ In (Resize win) events.

(** The context operation is a [clearRect]. *)
Definition is_clearRect (op : CtxOp) : Prop :=
  match op with
  | clearRect _ _ _ _ => True
  | _ => False
  end.

(** The number of animation frames among the events. *)
Fixpoint count_frames (events : list Event) : nat :=
  match events with
  | [] => 0
  | Frame :: rest => S (count_frames rest)
  | _ :: rest => count_frames rest
  end.

(** * Properties *)

(** ** Evaluating the comparisons *)

Lemma ltb_true (a b : R) : ltb a b = true <-> a < b.
Proof. unfold ltb; destruct (Rlt_dec a b); split; intros; try easy. Qed.

Lemma ltb_false (a b : R) : ltb a b = false <-> b <= a.
Proof.
  unfold ltb; destruct (Rlt_dec a b); split; intros; try easy; lra.
Qed.

(** Decide every [ltb] of the goal whose sides are numerals. *)
Ltac decide_ltb :=
  repeat match goal with
  | |- context [ltb ?a ?b] =>
      first
        [ replace (ltb a b) with true by (symmetry; apply ltb_true; lra)
        | replace (ltb a b) with false by (symmetry; apply ltb_false; lra) ]
  end.

Ltac unfold_update :=
  unfold frames, update, advance, interact, bounce_dx, bounce_dy, gtb,
    handleMouseMove, mouse_init, newParticle; cbn [x y dx dy radius baseRadius
    color baseX baseY density mouse_x mouse_y mouse_radius].

Lemma hypot_eq (a b r : R) : 0 <= r -> a * a + b * b = r * r -> hypot a b = r.
Proof. intros Hr H; unfold hypot; rewrite H; now apply sqrt_square. Qed.

(** [hypot a b < r] is a comparison of squares. *)
Lemma hypot_lt (a b r : R) : 0 < r -> a * a + b * b < r * r -> hypot a b < r.
Proof.
  intros Hr H; unfold hypot.
  rewrite <- (sqrt_square r) by lra.
  apply sqrt_lt_1_alt; split; [nra | exact H].
Qed.

Lemma hypot_le (a b r : R) : 0 <= r -> a * a + b * b <= r * r -> hypot a b <= r.
Proof.
  intros Hr H; unfold hypot.
  rewrite <- (sqrt_square r) by lra.
  now apply sqrt_le_1_alt.
Qed.

(** ** The bounce *)

Lemma update_absent ty w h m p :
  pointer_absent m -> update ty w h m p = advance w h p.
Proof.
  intros [H | H]; unfold update; rewrite H; [reflexivity |].
  now destruct (mouse_x m).
Qed.

Lemma bounce_dx_cases w p :
  (IZR w < x p + radius p \/ x p - radius p < 0) /\ bounce_dx w p = - dx p \/
  inside (IZR w) (x p) (radius p) /\ bounce_dx w p = dx p.
Proof.
  unfold bounce_dx, gtb, ltb, inside.
  destruct (Rlt_dec (IZR w) (x p + radius p));
    destruct (Rlt_dec (x p - radius p) 0); cbn; try (left; split; [lra | reflexivity]).
  right; split; [lra | reflexivity].
Qed.

Lemma bounce_dy_cases h p :
  (IZR h < y p + radius p \/ y p - radius p < 0) /\ bounce_dy h p = - dy p \/
  inside (IZR h) (y p) (radius p) /\ bounce_dy h p = dy p.
Proof.
  unfold bounce_dy, gtb, ltb, inside.
  destruct (Rlt_dec (IZR h) (y p + radius p));
    destruct (Rlt_dec (y p - radius p) 0); cbn; try (left; split; [lra | reflexivity]).
  right; split; [lra | reflexivity].
Qed.

Lemma axis_inv_bound hi pos r v :
  axis_inv hi pos r v -> r - Rabs v <= pos <= hi - r + Rabs v.
Proof.
  unfold axis_inv, inside; intros H.
  pose proof (Rabs_pos v). pose proof (Rle_abs v).
  pose proof (Rle_abs (- v)) as Hn. rewrite Rabs_Ropp in Hn.
  lra.
Qed.

Lemma advance_axis_inv w h p :
  axis_inv (IZR w) (x p) (radius p) (dx p) ->
  axis_inv (IZR h) (y p) (radius p) (dy p) ->
  axis_inv (IZR w) (x (advance w h p)) (radius p) (dx (advance w h p)) /\
  axis_inv (IZR h) (y (advance w h p)) (radius p) (dy (advance w h p)).
Proof.
  unfold axis_inv, inside; cbn [advance x y dx dy radius].
  intros Hx Hy; split.
  - destruct (bounce_dx_cases w p) as [[Hout ->] | [Hin ->]].
    + left. replace (x p + - dx p) with (x p - dx p) by ring. lra.
    + right. replace (x p + dx p - dx p) with (x p) by ring. exact Hin.
  - destruct (bounce_dy_cases h p) as [[Hout ->] | [Hin ->]].
    + left. replace (y p + - dy p) with (y p - dy p) by ring. lra.
    + right. replace (y p + dy p - dy p) with (y p) by ring. exact Hin.
Qed.

Lemma advance_abs w h p :
  Rabs (dx (advance w h p)) = Rabs (dx p) /\
  Rabs (dy (advance w h p)) = Rabs (dy p).
Proof.
  cbn [advance dx dy]; split.
  - destruct (bounce_dx_cases w p) as [[_ ->] | [_ ->]];
      [apply Rabs_Ropp | reflexivity].
  - destruct (bounce_dy_cases h p) as [[_ ->] | [_ ->]];
      [apply Rabs_Ropp | reflexivity].
Qed.

Lemma frames_absent_inv ty w h m n : forall p,
  pointer_absent m ->
  axis_inv (IZR w) (x p) (radius p) (dx p) ->
  axis_inv (IZR h) (y p) (radius p) (dy p) ->
  let q := frames ty w h m n p in
  radius q = radius p /\
  Rabs (dx q) = Rabs (dx p) /\ Rabs (dy q) = Rabs (dy p) /\
  axis_inv (IZR w) (x q) (radius p) (dx q) /\
  axis_inv (IZR h) (y q) (radius p) (dy q).
Proof.
  induction n as [| n IH]; intros p Hm Hx Hy; cbn [frames].
  - auto.
  - rewrite (update_absent ty w h m p Hm).
    destruct (advance_axis_inv w h p Hx Hy) as [Hx' Hy'].
    destruct (advance_abs w h p) as [Hdx Hdy].
    specialize (IH (advance w h p) Hm Hx' Hy').
    cbn zeta in IH.
    change (radius (advance w h p)) with (radius p) in IH.
    rewrite Hdx, Hdy in IH. exact IH.
Qed.

(** A run of [Math.random] under which the first particle made by
    [initParticles] in network mode, on an 800 by 600 canvas, is the
    particle of the counterexample below. *)
Lemma makeParticle_near_wall :
  let rnd := fun k : nat =>
    match k with
    | 1%nat => 795.96875 / 796
    | 3%nat => 0.65625
    | _ => 0.5
    end in
  (forall k, 0 <= rnd k < 1) /\
  makeParticle network rnd 800 600 0 0
  = newParticle 797.96875 300 0.0625 0 2 purple 0.5.
Proof.
  cbn zeta; split.
  - intros [| [| [| [| k]]]]; lra.
  - unfold makeParticle, newParticle, speed. cbn [Nat.add Nat.modulo Nat.eqb].
    f_equal; lra.
Qed.

(** With the pointer in reach, network mode pushes a resting particle
    that is inside the bounds well past them in one update. *)
Lemma repulsion_leaves_bounds :
  let p := newParticle 797 300 0 0 2 purple 0.5 in
  let q := update network 800 600 (handleMouseMove 700 300 mouse_init) p in
  in_bounds 800 600 p /\ x q = 801.85 /\ dx q = 0.
Proof.
  cbn zeta. unfold in_bounds. unfold_update. decide_ltb. cbn [orb].
  rewrite (hypot_eq _ _ 97) by lra. decide_ltb. cbn [x dx radius y].
  repeat split; lra.
Qed.

(** C1, as stated, fails: a particle that [initParticles] can create
    (radius 2, within the bounds of an 800 by 600 canvas, velocity
    0.0625 to the right) is past [width - radius] after one update, in
    network mode and in dots mode, with no pointer at all. *)
Lemma bounce_invariant_counterexample :
  let p := newParticle 797.96875 300 0.0625 0 2 purple 0.5 in
  in_bounds 800 600 p /\
  ~ in_bounds 800 600 (update network 800 600 mouse_init p) /\
  ~ in_bounds 800 600 (update dots 800 600 mouse_init p).
Proof.
  cbn zeta. unfold in_bounds. unfold_update. decide_ltb.
  cbn [orb x y radius]. repeat split; try lra; intros [H _]; lra.
Qed.

(** C1, amended: in network and dots modes, while the pointer is absent,
    a particle that starts within the bounds stays, after any number of
    updates, within one velocity step of them:
    [radius - |dx| <= x <= width - radius + |dx|], and likewise for [y];
    its radius does not change; and no update clamps the position: the
    new position is the old one plus the new velocity, whose magnitude
    is that of the old one. *)
Theorem bounce_within_one_step ty w h m p n :
  pointer_absent m ->
  in_bounds w h p ->
  let q := frames ty w h m n p in
  let q' := update ty w h m q in
  radius q = radius p /\
  (radius p - Rabs (dx p) <= x q <= IZR w - radius p + Rabs (dx p)) /\
  (radius p - Rabs (dy p) <= y q <= IZR h - radius p + Rabs (dy p)) /\
  x q' = x q + dx q' /\ y q' = y q + dy q' /\
  Rabs (dx q') = Rabs (dx q) /\ Rabs (dy q') = Rabs (dy q).
Proof.
  intros Hm [Hx Hy] q q'.
  destruct (frames_absent_inv ty w h m n p Hm) as (Hr & Hdx & Hdy & Ix & Iy).
  - left; exact Hx.
  - left; exact Hy.
  - fold q in Hr, Hdx, Hdy, Ix, Iy.
    apply axis_inv_bound in Ix. apply axis_inv_bound in Iy.
    rewrite Hdx in Ix. rewrite Hdy in Iy.
    subst q'. rewrite (update_absent ty w h m q Hm).
    destruct (advance_abs w h q) as [Ha Hb].
    repeat split; try tauto; try lra.
Qed.

Lemma bounce_within_one_step_witness :
  let p := newParticle 797.96875 300 0.0625 0 2 purple 0.5 in
  let q := frames network 800 600 mouse_init 2 p in
  pointer_absent mouse_init /\ in_bounds 800 600 p /\
  radius q = 2 /\ 2 - Rabs 0.0625 <= x q <= 800 - 2 + Rabs 0.0625.
Proof.
  cbn zeta.
  assert (Hm : pointer_absent mouse_init) by (left; reflexivity).
  assert (Hb : in_bounds 800 600 (newParticle 797.96875 300 0.0625 0 2 purple 0.5))
    by (unfold in_bounds, newParticle; cbn; lra).
  pose proof (bounce_within_one_step network 800 600 mouse_init _ 2%nat Hm Hb) as H.
  cbn zeta in H. destruct H as (Hr & Hx & _).
  repeat split; try exact Hr; try apply Hx; try apply Hb; exact Hm.
Defined.

(** The mouse block of [update] leaves the velocity alone. *)
Lemma update_velocity ty w h m p :
  dx (update ty w h m p) = dx (advance w h p) /\
  dy (update ty w h m p) = dy (advance w h p).
Proof.
  unfold update. destruct (mouse_x m), (mouse_y m); try (split; reflexivity).
  unfold interact.
  destruct ty; try (split; reflexivity);
    repeat match goal with |- context [if ?c then _ else _] => destruct c end;
    split; reflexivity.
Qed.

(** C4, as stated, fails in both directions.  A particle about to cross
    the right edge keeps its velocity (the test reads the position before
    the step), and a particle whose left edge is out while it moves
    right, back into the canvas, has its velocity negated (the test does
    not look at the direction; the radius 6 is a magnified dot). *)
Lemma bounce_exactly_when_counterexample :
  let p := newParticle 797.96875 300 0.0625 0 2 purple 0.5 in
  let q := {| x := 3; y := 300; baseRadius := 2; radius := 6;
              color := purple; dx := 0.0625; dy := 0;
              baseX := 3; baseY := 300; density := 16 |} in
  (leading_edge_exits 800 (x p) (radius p) (dx p) /\
   bounce_dx 800 p = dx p /\ dx p <> - dx p) /\
  (~ leading_edge_exits 800 (x q) (radius q) (dx q) /\
   bounce_dx 800 q = - dx q /\ dx q <> - dx q).
Proof.
  cbn zeta. unfold leading_edge_exits, bounce_dx, gtb, newParticle.
  cbn [x y dx dy radius]. decide_ltb. cbn [orb].
  repeat split; lra.
Qed.

(** C4, amended: on each axis the update negates the velocity component
    exactly when, at the position the frame starts from, an edge of the
    disc is outside the canvas on that axis ([x + radius > width] or
    [x - radius < 0]), whatever the direction of travel, and leaves it
    alone otherwise; either way its magnitude is kept and the position
    advances by the resulting velocity. *)
Theorem bounce_when_sticking_out ty w h m p :
  let q := advance w h p in
  (sticks_out (IZR w) (x p) (radius p) /\ dx q = - dx p \/
   ~ sticks_out (IZR w) (x p) (radius p) /\ dx q = dx p) /\
  (sticks_out (IZR h) (y p) (radius p) /\ dy q = - dy p \/
   ~ sticks_out (IZR h) (y p) (radius p) /\ dy q = dy p) /\
  Rabs (dx q) = Rabs (dx p) /\ Rabs (dy q) = Rabs (dy p) /\
  x q = x p + dx q /\ y q = y p + dy q /\
  dx (update ty w h m p) = dx q /\ dy (update ty w h m p) = dy q.
Proof.
  cbn zeta. unfold sticks_out.
  destruct (advance_abs w h p) as [Ha Hb].
  repeat split; try assumption; try reflexivity.
  - cbn [advance dx].
    destruct (bounce_dx_cases w p) as [[Hout ->] | [Hin ->]];
      [left | right]; split; try reflexivity; try exact Hout.
    unfold inside in Hin; lra.
  - cbn [advance dy].
    destruct (bounce_dy_cases h p) as [[Hout ->] | [Hin ->]];
      [left | right]; split; try reflexivity; try exact Hout.
    unfold inside in Hin; lra.
  - apply update_velocity.
  - apply update_velocity.
Qed.

(** A frame in network or dots mode runs [update] on every particle, on
    the canvas and with the pointer of that frame. *)
Lemma animate_particles ty s :
  ty <> waves ->
  sim_particles (animate ty s) =
  map (update ty (sim_width s) (sim_height s) (sim_mouse s)) (sim_particles s).
Proof.
  intros Hty. unfold animate, update_all.
  destruct ty; [reflexivity | contradiction | reflexivity].
Qed.

(** ** The pointer *)

(** [update] with the pointer at [(mx, my)]. *)
Lemma update_present ty w h m mx my p :
  mouse_x m = Some mx -> mouse_y m = Some my ->
  update ty w h m p = interact ty m mx my (advance w h p).
Proof. intros Hx Hy; unfold update; now rewrite Hx, Hy. Qed.

(** In dots mode, out of the pointer's reach, a radius above the base
    loses 0.1 and any other radius is kept. *)
Lemma decay_step w h m mx my p :
  mouse_x m = Some mx -> mouse_y m = Some my ->
  let p1 := advance w h p in
  mouse_radius m <= hypot (mx - x p1) (my - y p1) ->
  radius (update dots w h m p) =
    if gtb (radius p) (baseRadius p) then radius p - 0.1 else radius p.
Proof.
  intros Hx Hy p1 Hfar. rewrite (update_present _ _ _ _ _ _ _ Hx Hy).
  fold p1. unfold interact.
  apply ltb_false in Hfar. rewrite Hfar.
  change (radius p1) with (radius p); change (baseRadius p1) with (baseRadius p).
  now destruct (gtb (radius p) (baseRadius p)).
Qed.

(** A radius less than 0.1 above the base ends below the base. *)
Lemma decay_step_undershoot w h m mx my p :
  mouse_x m = Some mx -> mouse_y m = Some my ->
  let p1 := advance w h p in
  mouse_radius m <= hypot (mx - x p1) (my - y p1) ->
  baseRadius p < radius p < baseRadius p + 0.1 ->
  radius (update dots w h m p) < baseRadius p.
Proof.
  intros Hx Hy p1 Hfar [Hlo Hhi].
  rewrite (decay_step w h m mx my p Hx Hy Hfar).
  unfold gtb. apply ltb_true in Hlo. rewrite Hlo. lra.
Qed.

(** C2: the decay undershoots.  On an 800 by 600 canvas in dots mode a
    resting particle of base radius 2 at (410, 300) is magnified to 2.05
    by a pointer at distance 149.5; the pointer then moves out of reach,
    and the next update leaves the radius at 1.95, below the base. *)
Theorem decay_undershoots_base :
  let p0 := newParticle 410 300 0 0 2 purple 0.5 in
  let m1 := handleMouseMove 559.5 300 mouse_init in
  let p1 := update dots 800 600 m1 p0 in
  let m2 := handleMouseMove 700 300 m1 in
  let p2 := update dots 800 600 m2 p1 in
  baseRadius p1 = 2 /\ radius p1 = 2.05 /\
  baseRadius p2 = 2 /\ radius p2 = 1.95 /\ radius p2 < baseRadius p2.
Proof.
  cbn zeta.
  assert (H1 : update dots 800 600 (handleMouseMove 559.5 300 mouse_init)
                 (newParticle 410 300 0 0 2 purple 0.5)
               = {| x := 410 + 0; y := 300 + 0; baseRadius := 2; radius := 2.05;
                    color := purple; dx := 0; dy := 0;
                    baseX := 410; baseY := 300; density := 0.5 * 30 + 1 |}).
  { unfold_update. decide_ltb. cbn [orb].
    rewrite (hypot_eq _ _ 149.5) by lra. decide_ltb.
    f_equal. rewrite Rmin_right; lra. }
  rewrite H1. unfold_update. decide_ltb. cbn [orb].
  rewrite (hypot_eq _ _ 290) by lra. decide_ltb.
  cbn [radius baseRadius]. repeat split; lra.
Qed.

(** C6: in network mode, with the pointer at [(mx, my)], the position
    reached by the velocity step is moved by minus one twentieth of the
    vector from it to the pointer when its distance to the pointer is
    less than [mouse.radius], which takes it straight away from the
    pointer (the offset from the pointer is scaled by 21/20); at that
    distance or beyond, the position is the one reached by the velocity
    step.  Radius and velocity are those of the velocity step. *)
Theorem network_repulsion w h m mx my p :
  mouse_x m = Some mx -> mouse_y m = Some my ->
  let p1 := advance w h p in
  let q := update network w h m p in
  let distance := hypot (mx - x p1) (my - y p1) in
  (distance < mouse_radius m ->
     x q = x p1 - (mx - x p1) / 20 /\ y q = y p1 - (my - y p1) / 20 /\
     x q - mx = (x p1 - mx) * (21 / 20) /\
     y q - my = (y p1 - my) * (21 / 20)) /\
  (mouse_radius m <= distance -> x q = x p1 /\ y q = y p1) /\
  radius q = radius p /\ dx q = dx p1 /\ dy q = dy p1.
Proof.
  intros Hx Hy p1 q distance. subst q.
  rewrite (update_present _ _ _ _ _ _ _ Hx Hy). fold p1.
  unfold interact. fold distance.
  split; [| split].
  - intros Hd. apply ltb_true in Hd. rewrite Hd. cbn [x y].
    repeat split; lra.
  - intros Hd. apply ltb_false in Hd. rewrite Hd. now split.
  - destruct (ltb distance (mouse_radius m)); now repeat split.
Qed.

Lemma network_repulsion_witness :
  let m := handleMouseMove 400 300 mouse_init in
  let p := newParticle 410 300 0 0 2 purple 0.5 in
  mouse_x m = Some 400 /\ mouse_y m = Some 300 /\
  hypot (400 - x (advance 800 600 p)) (300 - y (advance 800 600 p))
    < mouse_radius m /\
  x (update network 800 600 m p) = 410.5.
Proof.
  cbn zeta.
  pose proof (network_repulsion 800 600 (handleMouseMove 400 300 mouse_init)
                400 300 (newParticle 410 300 0 0 2 purple 0.5)
                eq_refl eq_refl) as H.
  cbn zeta in H. destruct H as (Hnear & _).
  assert (Hd : hypot (400 - x (advance 800 600 (newParticle 410 300 0 0 2 purple 0.5)))
                 (300 - y (advance 800 600 (newParticle 410 300 0 0 2 purple 0.5)))
               < mouse_radius (handleMouseMove 400 300 mouse_init)).
  { unfold_update. decide_ltb. cbn [orb].
    rewrite (hypot_eq _ _ 10) by lra. lra. }
  destruct (Hnear Hd) as (Hxq & _).
  repeat split; try exact Hd.
  rewrite Hxq. unfold_update. decide_ltb. cbn [orb]. lra.
Defined.

(** *** The scenario of the magnified dot *)

Lemma magnify_formula w h m mx my p :
  mouse_x m = Some mx -> mouse_y m = Some my ->
  let p1 := advance w h p in
  let distance := hypot (mx - x p1) (my - y p1) in
  distance < mouse_radius m ->
  let q := update dots w h m p in
  radius q = Rmin (3 * baseRadius p)
               (baseRadius p + (mouse_radius m - distance) / 10) /\
  radius q <= 3 * baseRadius p /\
  x q = x p1 /\ y q = y p1 /\ baseRadius q = baseRadius p.
Proof.
  intros Hx Hy p1 distance Hd q. subst q.
  rewrite (update_present _ _ _ _ _ _ _ Hx Hy). fold p1.
  unfold interact. fold distance.
  apply ltb_true in Hd. rewrite Hd. cbn [radius x y baseRadius].
  change (baseRadius p1) with (baseRadius p).
  replace (baseRadius p * 3) with (3 * baseRadius p) by ring.
  repeat split; try reflexivity. apply Rmin_l.
Qed.

Lemma scenario_step k p :
  near_start k p -> (S k <= 700)%nat ->
  near_start (S k) (update dots 800 600 scenario_mouse p) /\
  radius (update dots 800 600 scenario_mouse p) = 6.
Proof.
  intros (Hx & Hy & Hdx & Hdy & Hb) Hk.
  apply le_INR in Hk. rewrite S_INR in Hk.
  replace (INR 700) with 700 in Hk by (now rewrite INR_IZR_INZ).
  set (p1 := advance 800 600 p).
  assert (Hdx1 : - 0.1 <= dx p1 <= 0.1).
  { subst p1; cbn [advance dx].
    destruct (bounce_dx_cases 800 p) as [[_ ->] | [_ ->]]; lra. }
  assert (Hdy1 : - 0.1 <= dy p1 <= 0.1).
  { subst p1; cbn [advance dy].
    destruct (bounce_dy_cases 600 p) as [[_ ->] | [_ ->]]; lra. }
  assert (Hx1 : x p1 = x p + dx p1) by reflexivity.
  assert (Hy1 : y p1 = y p + dy p1) by reflexivity.
  assert (Hd : hypot (400 - x p1) (300 - y p1) <= 110).
  { apply hypot_le; [lra |].
    assert (Ha : - 80 <= 400 - x p1 <= 80) by lra.
    assert (Hc : - 70 <= 300 - y p1 <= 70) by lra.
    generalize dependent (400 - x p1); generalize dependent (300 - y p1).
    intros b Hc a Ha.
    assert (0 <= (80 - a) * (80 + a)) by (apply Rmult_le_pos; lra).
    assert (0 <= (70 - b) * (70 + b)) by (apply Rmult_le_pos; lra).
    lra. }
  destruct (magnify_formula 800 600 scenario_mouse 400 300 p eq_refl eq_refl)
    as (Hr & _ & Hxq & Hyq & Hbq).
  { fold p1. cbn [scenario_mouse handleMouseMove mouse_radius mouse_init]. lra. }
  fold p1 in Hr, Hxq, Hyq.
  destruct (update_velocity dots 800 600 scenario_mouse p) as [Hdxq Hdyq].
  fold p1 in Hdxq, Hdyq.
  split.
  - unfold near_start. rewrite Hxq, Hyq, Hbq, Hdxq, Hdyq, S_INR.
    repeat split; lra.
  - rewrite Hr, Hb. cbn [scenario_mouse handleMouseMove mouse_radius mouse_init].
    rewrite Rmin_left; lra.
Qed.

Lemma scenario_frames n : forall k p,
  near_start k p -> (k + S n <= 700)%nat ->
  radius (frames dots 800 600 scenario_mouse (S n) p) = 6.
Proof.
  induction n as [| n IH]; intros k p Hp Hk.
  - cbn [frames]. apply (scenario_step k p Hp). lia.
  - change (frames dots 800 600 scenario_mouse (S (S n)) p)
      with (frames dots 800 600 scenario_mouse (S n)
              (update dots 800 600 scenario_mouse p)).
    apply (IH (S k)); [| lia].
    apply (scenario_step k p Hp). lia.
Qed.

(** C5: in dots mode, with the pointer present and the particle (where
    the velocity step has put it) at a distance below [mouse.radius],
    the update sets the radius to
    [min (3 * baseRadius) (baseRadius + (mouse.radius - distance) / 10)],
    which is at most [3 * baseRadius].  In the scenario (canvas 800 by
    600, pointer at (400, 300), a dot of base radius 2 at (410, 300) with
    any velocity that dots mode gives, at most 0.1 per axis) the radius
    is 2 at the start and 6 after each of the first 700 frames. *)
Theorem dots_magnify :
  (forall w h m mx my p,
     mouse_x m = Some mx -> mouse_y m = Some my ->
     let p1 := advance w h p in
     let distance := hypot (mx - x p1) (my - y p1) in
     distance < mouse_radius m ->
     let q := update dots w h m p in
     radius q = Rmin (3 * baseRadius p)
                  (baseRadius p + (mouse_radius m - distance) / 10) /\
     radius q <= 3 * baseRadius p) /\
  (forall vx vy rnd n,
     - 0.1 <= vx <= 0.1 -> - 0.1 <= vy <= 0.1 -> (n < 700)%nat ->
     let p := newParticle 410 300 vx vy 2 cyan rnd in
     radius (frames dots 800 600 scenario_mouse 0 p) = 2 /\
     radius (frames dots 800 600 scenario_mouse (S n) p) = 6).
Proof.
  split.
  - intros w h m mx my p Hx Hy p1 distance Hd q.
    destruct (magnify_formula w h m mx my p Hx Hy Hd) as (Hr & Hcap & _).
    split; assumption.
  - intros vx vy rnd n Hvx Hvy Hn p. split; [reflexivity |].
    apply (scenario_frames n 0); [| lia].
    unfold near_start, p, newParticle; cbn [x y dx dy baseRadius INR].
    repeat split; lra.
Qed.

Lemma dots_magnify_witness :
  let p := newParticle 410 300 0 0 2 cyan 0.5 in
  mouse_x scenario_mouse = Some 400 /\ mouse_y scenario_mouse = Some 300 /\
  hypot (400 - x (advance 800 600 p)) (300 - y (advance 800 600 p))
    < mouse_radius scenario_mouse /\
  radius (update dots 800 600 scenario_mouse p) <= 3 * 2 /\
  (- 0.1 <= 0 <= 0.1) /\ (3 < 700)%nat /\
  radius (frames dots 800 600 scenario_mouse 4 p) = 6.
Proof.
  cbn zeta.
  assert (Hd : hypot (400 - x (advance 800 600 (newParticle 410 300 0 0 2 cyan 0.5)))
                 (300 - y (advance 800 600 (newParticle 410 300 0 0 2 cyan 0.5)))
               < mouse_radius scenario_mouse).
  { unfold scenario_mouse. unfold_update. decide_ltb. cbn [orb].
    rewrite (hypot_eq _ _ 10) by lra. lra. }
  assert (Hv : - 0.1 <= 0 <= 0.1) by lra.
  assert (Hn : (3 < 700)%nat) by lia.
  split; [reflexivity | split; [reflexivity | split; [exact Hd |]]].
  split; [| split; [exact Hv | split; [exact Hn |]]].
  - apply (proj1 dots_magnify 800%Z 600%Z scenario_mouse 400 300
             (newParticle 410 300 0 0 2 cyan 0.5) eq_refl eq_refl Hd).
  - apply (proj2 dots_magnify 0 0 0.5 3%nat Hv Hv Hn).
Defined.

(** ** Connection lines *)

Lemma connect_pair_In w m pa pb l :
  In l (connect_pair w m pa pb) <->
  hypot (x pa - x pb) (y pa - y pb) < connectDistance w /\
  l = strokeLine (lineColor m pa)
        (opacity w (hypot (x pa - x pb) (y pa - y pb))) 1.2
        (x pa) (y pa) (x pb) (y pb).
Proof.
  unfold connect_pair, ltb.
  destruct (Rlt_dec (hypot (x pa - x pb) (y pa - y pb)) (connectDistance w))
    as [Hd | Hd]; cbn [In]; split.
  - intros [<- | []]; now split.
  - intros [_ ->]; now left.
  - intros [].
  - intros [H _]; contradiction.
Qed.

(** The lines of [connect] are those of the pairs of indices [a <= b]. *)
Lemma connect_In w m ps l :
  In l (connect w m ps) <->
  exists a b pa pb,
    (a <= b)%nat /\ nth_error ps a = Some pa /\ nth_error ps b = Some pb /\
    In l (connect_pair w m pa pb).
Proof.
  unfold connect; rewrite in_flat_map; split.
  - intros (a & Ha & Hl). apply in_flat_map in Hl as (b & Hb & Hl).
    apply in_seq in Hb.
    destruct (nth_error ps a) as [pa |] eqn:Ea; [| destruct Hl].
    destruct (nth_error ps b) as [pb |] eqn:Eb; [| destruct Hl].
    exists a, b, pa, pb. repeat split; try assumption; lia.
  - intros (a & b & pa & pb & Hab & Ea & Eb & Hl).
    assert (Hb : (b < List.length ps)%nat)
      by (apply nth_error_Some; rewrite Eb; discriminate).
    exists a; split; [apply in_seq; lia |].
    apply in_flat_map; exists b; split; [apply in_seq; lia |].
    now rewrite Ea, Eb.
Qed.

Lemma opacity_decreasing w d1 d2 :
  0 <= d1 -> d1 < d2 -> d2 < connectDistance w ->
  opacity w d2 < opacity w d1 /\ 0 < opacity w d2 /\ opacity w d1 <= 1.
Proof.
  intros H0 H12 H2. unfold opacity.
  set (t := connectDistance w) in *.
  assert (Ht : 0 < t) by lra.
  assert (Hi : 0 < / t) by now apply Rinv_0_lt_compat.
  unfold Rdiv.
  assert (d1 * / t < d2 * / t) by now apply Rmult_lt_compat_r.
  assert (d2 * / t < t * / t) by now apply Rmult_lt_compat_r.
  assert (0 <= d1 * / t) by (apply Rmult_le_pos; lra).
  rewrite Rinv_r in * by lra. lra.
Qed.

(** C3: in [connect], for every pair of indices [a <= b] of the particle
    array, a line joins particle [a] and particle [b] if and only if
    their distance is below [canvas.width / 8]; the opacity of such a
    line is [1 - distance / (canvas.width / 8)], and over distances below
    the threshold a greater distance gives a strictly smaller opacity. *)
Theorem connect_lines w m ps a b pa pb :
  (a <= b)%nat -> nth_error ps a = Some pa -> nth_error ps b = Some pb ->
  let distance := hypot (x pa - x pb) (y pa - y pb) in
  let threshold := IZR w / 8 in
  ((exists c o lw,
      In (strokeLine c o lw (x pa) (y pa) (x pb) (y pb)) (connect w m ps))
   <-> distance < threshold) /\
  (forall c o lw,
      In (strokeLine c o lw (x pa) (y pa) (x pb) (y pb)) (connect w m ps) ->
      o = 1 - distance / threshold) /\
  (forall d1 d2, 0 <= d1 -> d1 < d2 -> d2 < threshold ->
      opacity w d2 < opacity w d1).
Proof.
  intros Hab Ea Eb distance threshold.
  assert (Hfrom : forall c o lw,
    In (strokeLine c o lw (x pa) (y pa) (x pb) (y pb)) (connect w m ps) ->
    distance < threshold /\ o = 1 - distance / threshold).
  { intros c o lw Hl.
    apply connect_In in Hl as (a' & b' & pa' & pb' & _ & _ & _ & Hl).
    apply connect_pair_In in Hl as [Hd Hl].
    injection Hl as _ Ho _ Hxa Hya Hxb Hyb.
    subst distance threshold. rewrite Hxa, Hya, Hxb, Hyb.
    split; [exact Hd | exact Ho]. }
  split; [split | split].
  - intros (c & o & lw & Hl). now apply (Hfrom c o lw).
  - intros Hd.
    exists (lineColor m pa), (opacity w distance), 1.2.
    apply connect_In. exists a, b, pa, pb. repeat split; try assumption.
    apply connect_pair_In. now split.
  - intros c o lw Hl. now apply (Hfrom c o lw).
  - intros d1 d2 H0 H12 H2. now apply opacity_decreasing.
Qed.

Lemma connect_lines_witness :
  let pa := newParticle 10 300 0 0 2 purple 0.5 in
  let pb := newParticle 20 300 0 0 2 cyan 0.5 in
  (0 <= 1)%nat /\
  nth_error [pa; pb] 0 = Some pa /\ nth_error [pa; pb] 1 = Some pb /\
  (exists c o lw,
     In (strokeLine c o lw 10 300 20 300) (connect 800 mouse_init [pa; pb])) /\
  opacity 800 20 < opacity 800 10.
Proof.
  cbn zeta.
  pose proof (connect_lines 800 mouse_init
                [newParticle 10 300 0 0 2 purple 0.5;
                 newParticle 20 300 0 0 2 cyan 0.5] 0 1 _ _
                (Nat.le_0_l 1) eq_refl eq_refl) as H.
  cbn zeta in H. destruct H as (Hiff & _ & Hmono).
  repeat split; try reflexivity; try apply Nat.le_0_l.
  - apply Hiff. cbn [newParticle x y]. apply hypot_lt; lra.
  - apply Hmono; lra.
Defined.

(** The colour prefix of every line of [connect] is [lineColor] at the
    first particle of some pair. *)
Lemma connect_color w m ps c o lw x1 y1 x2 y2 :
  In (strokeLine c o lw x1 y1 x2 y2) (connect w m ps) ->
  exists pa, In pa ps /\ c = lineColor m pa.
Proof.
  intros Hl.
  apply connect_In in Hl as (a & b & pa & pb & _ & Ea & _ & Hl).
  apply connect_pair_In in Hl as [_ Hl].
  injection Hl as Hc _ _ _ _ _ _.
  exists pa; split; [now apply nth_error_In with a | exact Hc].
Qed.

Lemma truthy_zero : truthy (Some 0) = false.
Proof. unfold truthy. destruct (Req_dec_T 0 0); [reflexivity | contradiction]. Qed.

(** C10: when the last [mousemove] left [x = 0] or [y = 0] in [mouse],
    every line painted by [connect] has the default colour prefix,
    wherever the particles are: the test [mouse.x && mouse.y && ...] is
    falsy however near the pointer is. *)
Theorem zero_coordinate_hides_highlight w m0 cx cy ps c o lw x1 y1 x2 y2 :
  cx = 0 \/ cy = 0 ->
  In (strokeLine c o lw x1 y1 x2 y2) (connect w (handleMouseMove cx cy m0) ps) ->
  c = line_cyan.
Proof.
  intros Hz Hl. apply connect_color in Hl as (pa & _ & ->).
  unfold lineColor, pointer_near, handleMouseMove; cbn [mouse_x mouse_y].
  destruct Hz as [-> | ->]; rewrite truthy_zero.
  - reflexivity.
  - now rewrite andb_false_r.
Qed.

(** With both coordinates different from zero the same pair is painted
    in the highlight colour. *)
Lemma nonzero_pointer_highlights w m0 cx cy pa pb :
  cx <> 0 -> cy <> 0 ->
  hypot (cx - x pa) (cy - y pa) < mouse_radius m0 ->
  hypot (x pa - x pb) (y pa - y pb) < connectDistance w ->
  connect_pair w (handleMouseMove cx cy m0) pa pb =
    [strokeLine line_purple (opacity w (hypot (x pa - x pb) (y pa - y pb)))
       1.2 (x pa) (y pa) (x pb) (y pb)].
Proof.
  intros Hx Hy Hnear Hd. unfold connect_pair.
  apply ltb_true in Hd. rewrite Hd.
  unfold lineColor, pointer_near, handleMouseMove, truthy;
    cbn [mouse_x mouse_y mouse_radius].
  destruct (Req_dec_T cx 0); [contradiction |].
  destruct (Req_dec_T cy 0); [contradiction |].
  apply ltb_true in Hnear. now rewrite Hnear.
Qed.

Lemma zero_coordinate_hides_highlight_witness :
  let pa := newParticle 10 300 0 0 2 purple 0.5 in
  let pb := newParticle 20 300 0 0 2 cyan 0.5 in
  let m := handleMouseMove 0 300 mouse_init in
  (0 = 0 \/ 300 = 0) /\
  hypot (0 - x pa) (300 - y pa) < mouse_radius m /\
  connect_pair 800 m pa pb = [strokeLine line_cyan 0.9 1.2 10 300 20 300].
Proof.
  cbn zeta.
  assert (Hz : 0 = 0 \/ 300 = 0) by (left; reflexivity).
  assert (Hl : In (strokeLine
                     (lineColor (handleMouseMove 0 300 mouse_init)
                        (newParticle 10 300 0 0 2 purple 0.5))
                     0.9 1.2 10 300 20 300)
                 (connect 800 (handleMouseMove 0 300 mouse_init)
                    [newParticle 10 300 0 0 2 purple 0.5;
                     newParticle 20 300 0 0 2 cyan 0.5])).
  { apply connect_In.
    exists 0%nat, 1%nat, (newParticle 10 300 0 0 2 purple 0.5),
      (newParticle 20 300 0 0 2 cyan 0.5).
    repeat split; try reflexivity; try apply Nat.le_0_l.
    apply connect_pair_In. cbn [newParticle x y].
    unfold opacity, connectDistance.
    split; [apply hypot_lt; lra |].
    rewrite (hypot_eq _ _ 10) by lra.
    f_equal. lra. }
  pose proof (zero_coordinate_hides_highlight 800 mouse_init 0 300 _ _ _ _ _ _ _ _
                Hz Hl) as Hc.
  repeat split; try exact Hz.
  - cbn [newParticle x y handleMouseMove mouse_radius mouse_init].
    apply hypot_lt; lra.
  - unfold connect_pair. cbn [newParticle x y].
    replace (ltb (hypot (10 - 20) (300 - 300)) (connectDistance 800)) with true
      by (symmetry; apply ltb_true; apply hypot_lt; unfold connectDistance; lra).
    cbn [newParticle x y] in Hc. rewrite Hc.
    unfold opacity, connectDistance. rewrite (hypot_eq _ _ 10) by lra.
    do 2 f_equal. lra.
Defined.

(** ** Waves *)

Lemma drawWaves_from_absent w h m t ws : forall index,
  mouse_y m = None -> fst (drawWaves_from w h m index t ws) = ws.
Proof.
  induction ws as [| wave rest IH]; intros index Hm; cbn [drawWaves_from].
  - reflexivity.
  - specialize (IH (S index) Hm).
    destruct (drawWaves_from w h m (S index) t rest) as [rest1 ops].
    cbn [fst] in *. unfold wave_interact. rewrite Hm. now rewrite IH.
Qed.

Lemma wave_interact_centre h m index wave :
  (0 < h)%Z -> mouse_y m = Some (IZR h / 2) ->
  amplitude (wave_interact h m index wave) = baseAmplitude wave /\
  baseAmplitude (wave_interact h m index wave) = baseAmplitude wave.
Proof.
  intros Hh Hm. unfold wave_interact. rewrite Hm. cbn [amplitude baseAmplitude].
  apply IZR_lt in Hh.
  split; [| reflexivity].
  replace (IZR h / 2 / IZR h * 2 - 1) with 0 by (field; lra).
  ring.
Qed.

Lemma drawWaves_from_centre w h m t ws : forall index,
  (0 < h)%Z -> mouse_y m = Some (IZR h / 2) ->
  map amplitude (fst (drawWaves_from w h m index t ws)) = map baseAmplitude ws.
Proof.
  induction ws as [| wave rest IH]; intros index Hh Hm; cbn [drawWaves_from].
  - reflexivity.
  - specialize (IH (S index) Hh Hm).
    destruct (drawWaves_from w h m (S index) t rest) as [rest1 ops].
    cbn [fst map] in *.
    rewrite IH. f_equal. now apply wave_interact_centre.
Qed.

Lemma drawWaves_waves_eq w h m t ws :
  drawWaves_waves w h m t ws = fst (drawWaves_from w h m 0 (t + 0.015) ws).
Proof.
  unfold drawWaves_waves, drawWaves.
  now destruct (drawWaves_from w h m 0 (t + 0.015) ws).
Qed.

(** C9: on a canvas of positive height, with the pointer's [y] at half
    the canvas height, the interaction of [drawWaves] gives every wave,
    at every index, its base amplitude as amplitude; after [drawWaves]
    the amplitudes of the waves are, in order, their base amplitudes. *)
Theorem centre_pointer_amplitude w h m t ws :
  (0 < h)%Z -> mouse_y m = Some (IZR h / 2) ->
  (forall index wave,
     amplitude (wave_interact h m index wave) = baseAmplitude wave) /\
  map amplitude (drawWaves_waves w h m t ws) = map baseAmplitude ws.
Proof.
  intros Hh Hm; split.
  - intros index wave. now apply wave_interact_centre.
  - rewrite drawWaves_waves_eq. now apply drawWaves_from_centre.
Qed.

Lemma centre_pointer_amplitude_witness :
  let wave := {| timeModifier := 0.8; baseAmplitude := 80; amplitude := 95;
                 wavelength := 350; wave_color := "rgba(123, 62, 240, 0.4)";
                 yOffset := 75 |} in
  let m := handleMouseMove 400 300 mouse_init in
  (0 < 600)%Z /\ mouse_y m = Some (600 / 2) /\
  amplitude (wave_interact 600 m 2 wave) = 80.
Proof.
  cbn zeta.
  assert (Hh : (0 < 600)%Z) by reflexivity.
  assert (Hm : mouse_y (handleMouseMove 400 300 mouse_init) = Some (600 / 2))
    by (cbn; f_equal; lra).
  repeat split; try exact Hm.
  apply (proj1 (centre_pointer_amplitude 800 600 _ 0 [] Hh Hm) 2%nat).
Defined.

(** ** Before the first [mousemove] *)

Lemma step_keeps_mouse ty rnd s e :
  (forall cx cy, e <> MouseMove cx cy) ->
  sim_mouse (step ty rnd s e) = sim_mouse s.
Proof.
  intros He. destruct e as [cx cy | win |]; cbn [step].
  - now destruct (He cx cy).
  - unfold resizeCanvas.
    destruct ty;
      repeat match goal with
             | |- context [let (_, _) := ?e in _] => destruct e
             end; reflexivity.
  - unfold animate.
    destruct ty;
      repeat match goal with
             | |- context [let (_, _) := ?e in _] => destruct e
             end; reflexivity.
Qed.

Lemma run_keeps_mouse ty rnd events : forall s,
  no_mouse_move events ->
  sim_mouse (run ty rnd s events) = sim_mouse s.
Proof.
  unfold run, no_mouse_move.
  induction events as [| e rest IH]; intros s Hno; cbn [fold_left].
  - reflexivity.
  - rewrite IH.
    + apply step_keeps_mouse. intros cx cy ->. apply (Hno cx cy). now left.
    + intros cx cy Hin. apply (Hno cx cy). now right.
Qed.

(** Once a [mousemove] has been handled, no event brings [mouse.x] or
    [mouse.y] back to [undefined]. *)
Lemma step_mouse_present ty rnd s e :
  mouse_x (sim_mouse s) <> None /\ mouse_y (sim_mouse s) <> None ->
  mouse_x (sim_mouse (step ty rnd s e)) <> None /\
  mouse_y (sim_mouse (step ty rnd s e)) <> None.
Proof.
  intros H. destruct e as [cx cy | win |].
  - cbn [step sim_mouse handleMouseMove mouse_x mouse_y]. split; discriminate.
  - rewrite step_keeps_mouse; [exact H | discriminate].
  - rewrite step_keeps_mouse; [exact H | discriminate].
Qed.

Lemma mouse_never_cleared ty rnd events : forall s,
  mouse_x (sim_mouse s) <> None /\ mouse_y (sim_mouse s) <> None ->
  mouse_x (sim_mouse (run ty rnd s events)) <> None /\
  mouse_y (sim_mouse (run ty rnd s events)) <> None.
Proof.
  unfold run. induction events as [| e rest IH]; intros s H; cbn [fold_left].
  - exact H.
  - apply IH. now apply step_mouse_present.
Qed.

(** C7: after any events that contain no [mousemove], [mouse] is as
    initialised, and with it: [update] is the bounce and the velocity
    step alone (the position is not pushed and the radius not changed),
    [drawWaves] returns the waves as they were, amplitudes included, and
    every line of [connect] has the default colour prefix. *)
Theorem before_first_pointer_move ty rnd w0 h0 events :
  no_mouse_move events ->
  let s := run ty rnd (sim_init w0 h0) events in
  let w := sim_width s in
  let h := sim_height s in
  sim_mouse s = mouse_init /\
  (forall p, update ty w h (sim_mouse s) p = advance w h p) /\
  (forall p, radius (update ty w h (sim_mouse s) p) = radius p /\
             x (update ty w h (sim_mouse s) p) = x p + bounce_dx w p /\
             y (update ty w h (sim_mouse s) p) = y p + bounce_dy h p) /\
  (forall t ws, drawWaves_waves w h (sim_mouse s) t ws = ws) /\
  (forall ps c o lw x1 y1 x2 y2,
     In (strokeLine c o lw x1 y1 x2 y2) (connect w (sim_mouse s) ps) ->
     c = line_cyan).
Proof.
  intros Hno s w h.
  assert (Hm : sim_mouse s = mouse_init)
    by (subst s; now rewrite run_keeps_mouse).
  rewrite Hm.
  assert (Hup : forall p, update ty w h mouse_init p = advance w h p)
    by (intros p; apply update_absent; now left).
  split; [reflexivity | split; [exact Hup | split; [| split]]].
  - intros p. now rewrite Hup.
  - intros t ws. rewrite drawWaves_waves_eq. now apply drawWaves_from_absent.
  - intros ps c o lw x1 y1 x2 y2 Hl.
    apply connect_color in Hl as (pa & _ & ->). reflexivity.
Qed.

Lemma before_first_pointer_move_witness :
  let win := {| innerWidth := 1200; innerHeight := 700;
                parentHeight := Some 600%Z; isDarkMode := false |} in
  let events := [Frame; Resize win; Frame] in
  no_mouse_move events /\
  sim_mouse (run network (fun _ => 0.5) (sim_init 300 150) events) = mouse_init.
Proof.
  cbn zeta.
  assert (Hno : no_mouse_move
                  [Frame;
                   Resize {| innerWidth := 1200; innerHeight := 700;
                             parentHeight := Some 600%Z; isDarkMode := false |};
                   Frame]).
  { intros cx cy [H | [H | [H | []]]]; discriminate H. }
  split; [exact Hno |].
  apply (before_first_pointer_move network (fun _ => 0.5) 300 150 _ Hno).
Defined.

(** ** Initialisation *)

Lemma initParticles_loop_length ty rnd w h n : forall i k ps,
  List.length (fst (initParticles_loop ty rnd w h n i k ps))
  = (List.length ps + n)%nat.
Proof.
  induction n as [| n IH]; intros i k ps; cbn [initParticles_loop].
  - cbn [fst]. lia.
  - rewrite IH, length_app. cbn [List.length]. lia.
Qed.

Lemma initParticles_length ty rnd w h iw k :
  List.length (fst (initParticles ty rnd w h iw k)) = particleCount ty iw.
Proof. unfold initParticles. now rewrite initParticles_loop_length. Qed.

Lemma resizeCanvas_particles ty rnd win s :
  ty <> waves ->
  sim_particles (resizeCanvas ty rnd win s) =
  fst (initParticles ty rnd (innerWidth win) (sim_height (resizeCanvas ty rnd win s))
         (innerWidth win) (sim_rng s)).
Proof.
  intros Hty. unfold resizeCanvas.
  destruct ty; try contradiction;
    match goal with
    | |- context [let (_, _) := ?e in _] => destruct e eqn:E
    end; cbn [sim_particles sim_height]; now rewrite E.
Qed.

(** C8: in network and dots modes [resizeCanvas] leaves a particle array
    that does not depend on the one it found, and whose length is fixed
    by the mode and by [window.innerWidth] against 768: 80 (at 768 or
    more) or 40 (below) in network mode, 180 or 60 in dots mode. *)
Theorem initParticles_fresh_count ty rnd win s :
  ty = network \/ ty = dots ->
  let s' := resizeCanvas ty rnd win s in
  (forall ps,
     sim_particles (resizeCanvas ty rnd win (with_particles ps s))
     = sim_particles s') /\
  List.length (sim_particles s') =
    match ty, (768 <=? innerWidth win)%Z with
    | network, true => 80%nat
    | network, false => 40%nat
    | _, true => 180%nat
    | _, false => 60%nat
    end.
Proof.
  intros Hty s'.
  assert (Hw : ty <> waves) by (destruct Hty; subst; discriminate).
  split.
  - intros ps. subst s'. rewrite !resizeCanvas_particles by exact Hw.
    unfold resizeCanvas.
    destruct ty; try contradiction;
      repeat match goal with
             | |- context [let (_, _) := ?e in _] => destruct e
             end; reflexivity.
  - subst s'. rewrite resizeCanvas_particles by exact Hw.
    rewrite initParticles_length. unfold particleCount.
    rewrite Z.leb_antisym.
    destruct Hty; subst; now destruct (innerWidth win <? 768)%Z.
Qed.

Lemma initParticles_fresh_count_witness :
  let wide := {| innerWidth := 1200; innerHeight := 700;
                 parentHeight := Some 600%Z; isDarkMode := false |} in
  let narrow := {| innerWidth := 500; innerHeight := 700;
                   parentHeight := None; isDarkMode := false |} in
  (network = network \/ network = dots) /\
  List.length (sim_particles
                 (resizeCanvas network (fun _ => 0.5) wide (sim_init 300 150)))
  = 80%nat /\
  List.length (sim_particles
                 (resizeCanvas network (fun _ => 0.5) narrow (sim_init 300 150)))
  = 40%nat.
Proof.
  cbn zeta.
  assert (Hty : network = network \/ network = dots) by (left; reflexivity).
  split; [exact Hty | split].
  - apply (initParticles_fresh_count network (fun _ => 0.5)
             {| innerWidth := 1200; innerHeight := 700;
                parentHeight := Some 600%Z; isDarkMode := false |}
             (sim_init 300 150) Hty).
  - apply (initParticles_fresh_count network (fun _ => 0.5)
             {| innerWidth := 500; innerHeight := 700;
                parentHeight := None; isDarkMode := false |}
             (sim_init 300 150) Hty).
Defined.

(** * Further properties of the component *)

(** ** What holds of every particle, whatever the events *)

Lemma initParticles_loop_Forall ty rnd w h (P : Particle -> Prop) :
  (forall i k, P (makeParticle ty rnd w h i k)) ->
  forall n i k ps,
    Forall P ps -> Forall P (fst (initParticles_loop ty rnd w h n i k ps)).
Proof.
  intros Hmake; induction n as [| n IH]; intros i k ps Hps;
    cbn [initParticles_loop].
  - exact Hps.
  - apply IH. apply Forall_app; split; [exact Hps |].
    constructor; [apply Hmake | constructor].
Qed.

(** A property that every new particle has and that [update] keeps is
    had by every particle after any events. *)
Lemma run_particles_Forall ty rnd (P : Particle -> Prop) :
  (forall w h i k, P (makeParticle ty rnd w h i k)) ->
  (forall w h m p, P p -> P (update ty w h m p)) ->
  forall events s,
    Forall P (sim_particles s) ->
    Forall P (sim_particles (run ty rnd s events)).
Proof.
  intros Hmake Hupd. unfold run.
  induction events as [| e rest IH]; intros s Hs; cbn [fold_left].
  - exact Hs.
  - apply IH. destruct e as [cx cy | win |]; cbn [step sim_particles].
    + exact Hs.
    + unfold resizeCanvas.
      destruct ty.
      * pose proof (initParticles_loop_Forall network rnd (innerWidth win)
          (match parentHeight win with
           | Some ph => if (0 <? ph)%Z then ph else innerHeight win
           | None => innerHeight win
           end) P (Hmake _ _)
          (particleCount network (innerWidth win)) 0 (sim_rng s) []
          (Forall_nil P)) as H.
        unfold initParticles.
        destruct (initParticles_loop network rnd _ _ _ 0 (sim_rng s) []).
        exact H.
      * destruct (initWaves _ _ _ _). exact Hs.
      * pose proof (initParticles_loop_Forall dots rnd (innerWidth win)
          (match parentHeight win with
           | Some ph => if (0 <? ph)%Z then ph else innerHeight win
           | None => innerHeight win
           end) P (Hmake _ _)
          (particleCount dots (innerWidth win)) 0 (sim_rng s) []
          (Forall_nil P)) as H.
        unfold initParticles.
        destruct (initParticles_loop dots rnd _ _ _ 0 (sim_rng s) []).
        exact H.
    + unfold animate, update_all.
      destruct ty; cbn [sim_particles].
      * apply Forall_map. revert Hs. apply Forall_impl. intros p; apply Hupd.
      * destruct (drawWaves _ _ _ _ _) as [[t ws] ops]. exact Hs.
      * apply Forall_map. revert Hs. apply Forall_impl. intros p; apply Hupd.
Qed.

(** X1: in dots mode, after any events, every particle has a base radius
    in [1, 3.5) and a radius above its base radius minus 0.1 and at most
    three times its base radius. *)
Theorem dots_radius_band rnd w0 h0 events :
  unit_random rnd ->
  Forall (fun p => 1 <= baseRadius p < 3.5 /\
                   baseRadius p - 0.1 < radius p <= 3 * baseRadius p)
    (sim_particles (run dots rnd (sim_init w0 h0) events)).
Proof.
  intros Hrnd. apply run_particles_Forall.
  - intros w h i k. unfold makeParticle, newParticle; cbn [baseRadius radius].
    pose proof (Hrnd k). lra.
  - intros w h m p [Hb Hr]. unfold update.
    change (radius (advance w h p)) with (radius p) in *.
    destruct (mouse_x m) as [mx |]; [| exact (conj Hb Hr)].
    destruct (mouse_y m) as [my |]; [| exact (conj Hb Hr)].
    unfold interact. set (p1 := advance w h p).
    change (radius p1) with (radius p); change (baseRadius p1) with (baseRadius p).
    set (d := hypot (mx - x p1) (my - y p1)).
    destruct (ltb d (mouse_radius m)) eqn:Hd.
    + cbn [baseRadius radius]. apply ltb_true in Hd.
      split; [exact Hb |]. split.
      * apply Rmin_glb_lt; lra.
      * replace (baseRadius p * 3) with (3 * baseRadius p) by ring. apply Rmin_l.
    + destruct (gtb (radius p) (baseRadius p)) eqn:Hg.
      * cbn [baseRadius radius]. apply ltb_true in Hg. lra.
      * exact (conj Hb Hr).
  - constructor.
Qed.

Lemma dots_radius_band_witness :
  unit_random (fun _ => 0.5) /\
  Forall (fun p => 1 <= baseRadius p < 3.5 /\
                   baseRadius p - 0.1 < radius p <= 3 * baseRadius p)
    (sim_particles
       (run dots (fun _ => 0.5) (sim_init 300 150)
          [Resize {| innerWidth := 500; innerHeight := 700;
                     parentHeight := None; isDarkMode := false |};
           MouseMove 100 100; Frame])).
Proof.
  assert (H : unit_random (fun _ => 0.5)) by (intros k; lra).
  split; [exact H |].
  apply (dots_radius_band (fun _ => 0.5) 300 150 _ H).
Defined.

(** X2: after any events, in every mode, each velocity component of
    every particle is at most half the speed of the mode in magnitude
    (0.2 in network mode, 0.1 in dots mode): bounces negate it and
    nothing else writes it. *)
Theorem velocity_bounded ty rnd w0 h0 events :
  unit_random rnd ->
  Forall (fun p => Rabs (dx p) <= speed ty / 2 /\ Rabs (dy p) <= speed ty / 2)
    (sim_particles (run ty rnd (sim_init w0 h0) events)).
Proof.
  intros Hrnd. apply run_particles_Forall.
  - intros w h i k. unfold makeParticle, newParticle; cbn [dx dy].
    pose proof (Hrnd (k + 3)%nat). pose proof (Hrnd (k + 4)%nat).
    split; apply Rabs_le; destruct ty; unfold speed; split; nra.
  - intros w h m p [Hx Hy].
    destruct (update_velocity ty w h m p) as [-> ->].
    destruct (advance_abs w h p) as [-> ->]. now split.
  - constructor.
Qed.

Lemma velocity_bounded_witness :
  unit_random (fun _ => 0.25) /\
  Forall (fun p => Rabs (dx p) <= speed network / 2 /\
                   Rabs (dy p) <= speed network / 2)
    (sim_particles
       (run network (fun _ => 0.25) (sim_init 300 150)
          [Resize {| innerWidth := 500; innerHeight := 700;
                     parentHeight := None; isDarkMode := false |};
           Frame; MouseMove 100 100; Frame])).
Proof.
  assert (H : unit_random (fun _ => 0.25)) by (intros k; lra).
  split; [exact H |].
  apply (velocity_bounded network (fun _ => 0.25) 300 150 _ H).
Defined.

(** X3: in network mode, after any events, every particle has the radius
    it was created with, between 1 and 3: the pointer moves particles
    there and never resizes them. *)
Theorem network_radius_constant rnd w0 h0 events :
  unit_random rnd ->
  Forall (fun p => radius p = baseRadius p /\ 1 <= radius p < 3)
    (sim_particles (run network rnd (sim_init w0 h0) events)).
Proof.
  intros Hrnd. apply run_particles_Forall.
  - intros w h i k. unfold makeParticle, newParticle; cbn [baseRadius radius].
    pose proof (Hrnd k). split; [reflexivity | lra].
  - intros w h m p Hp. unfold update.
    destruct (mouse_x m) as [mx |]; [| exact Hp].
    destruct (mouse_y m) as [my |]; [| exact Hp].
    unfold interact.
    destruct (ltb _ _); exact Hp.
  - constructor.
Qed.

Lemma network_radius_constant_witness :
  unit_random (fun _ => 0.25) /\
  Forall (fun p => radius p = baseRadius p /\ 1 <= radius p < 3)
    (sim_particles
       (run network (fun _ => 0.25) (sim_init 300 150)
          [Resize {| innerWidth := 500; innerHeight := 700;
                     parentHeight := None; isDarkMode := false |};
           MouseMove 100 100; Frame; Frame])).
Proof.
  assert (H : unit_random (fun _ => 0.25)) by (intros k; lra).
  split; [exact H |].
  apply (network_radius_constant (fun _ => 0.25) 300 150 _ H).
Defined.

Lemma update_identity ty w h m p : identity (update ty w h m p) = identity p.
Proof.
  unfold update. destruct (mouse_x m), (mouse_y m); try reflexivity.
  unfold interact.
  destruct ty; try reflexivity;
    repeat match goal with |- context [if ?c then _ else _] => destruct c end;
    reflexivity.
Qed.

(** X4: an animation frame, in any mode and with any pointer, keeps the
    particles in their order with their base radius, colour, [baseX],
    [baseY] and [density]; in particular it neither adds nor removes a
    particle. *)
Theorem animate_keeps_identity ty s :
  map identity (sim_particles (animate ty s))
  = map identity (sim_particles s) /\
  List.length (sim_particles (animate ty s)) = List.length (sim_particles s).
Proof.
  assert (H : map identity (sim_particles (animate ty s))
              = map identity (sim_particles s)).
  { unfold animate, update_all.
    destruct ty; cbn [sim_particles].
    - rewrite map_map. apply map_ext. intros p; apply update_identity.
    - now destruct (drawWaves _ _ _ _ _) as [[t ws] ops].
    - rewrite map_map. apply map_ext. intros p; apply update_identity. }
  split; [exact H |].
  rewrite <- (length_map identity), H. apply length_map.
Qed.

Lemma connect_nil w m : connect w m [] = [].
Proof. reflexivity. Qed.

Lemma animate_empty ty s :
  sim_particles s = [] -> sim_waves s = [] ->
  sim_particles (animate ty s) = [] /\ sim_waves (animate ty s) = [] /\
  sim_ctx (animate ty s)
  = sim_ctx s ++ [clearRect 0 0 (IZR (sim_width s)) (IZR (sim_height s))].
Proof.
  intros Hp Hw. unfold animate, update_all, drawWaves.
  rewrite Hp, Hw. destruct ty; cbn; repeat split; reflexivity.
Qed.

(** X5: until the first [resize] runs there is nothing to draw: after
    any events without a [resize], in any mode, there are no particles
    and no waves, and the context has received one [clearRect] for each
    animation frame and nothing else. *)
Theorem nothing_before_first_resize ty rnd w0 h0 events :
  no_resize events ->
  let s := run ty rnd (sim_init w0 h0) events in
  sim_particles s = [] /\ sim_waves s = [] /\
  Forall is_clearRect (sim_ctx s) /\
  List.length (sim_ctx s) = count_frames events.
Proof.
  intros Hno s. subst s.
  assert (G : forall evs s0,
    (forall win, ~ In (Resize win) evs) ->
    sim_particles s0 = [] -> sim_waves s0 = [] ->
    Forall is_clearRect (sim_ctx s0) ->
    sim_particles (run ty rnd s0 evs) = [] /\
    sim_waves (run ty rnd s0 evs) = [] /\
    Forall is_clearRect (sim_ctx (run ty rnd s0 evs)) /\
    List.length (sim_ctx (run ty rnd s0 evs))
    = (List.length (sim_ctx s0) + count_frames evs)%nat).
  { unfold run. induction evs as [| e rest IH]; intros s0 Hn Hp Hw Hc;
      cbn [fold_left count_frames].
    - repeat split; try assumption. lia.
    - assert (Hrest : forall win, ~ In (Resize win) rest)
        by (intros win Hin; apply (Hn win); now right).
      destruct e as [cx cy | win |].
      + apply (IH (step ty rnd s0 (MouseMove cx cy)));
          cbn [step sim_particles sim_waves sim_ctx]; assumption.
      + exfalso. apply (Hn win). now left.
      + destruct (animate_empty ty s0 Hp Hw) as (Hp' & Hw' & Hc').
        destruct (IH (step ty rnd s0 Frame) Hrest) as (A & B & C & D);
          cbn [step]; try assumption.
        * rewrite Hc'. apply Forall_app; split; [exact Hc |].
          constructor; [exact I | constructor].
        * repeat split; try assumption.
          cbn [step] in D. rewrite D, Hc', length_app. cbn [List.length]. lia. }
  destruct (G events (sim_init w0 h0) Hno eq_refl eq_refl (Forall_nil _))
    as (A & B & C & D).
  repeat split; assumption.
Qed.

Lemma nothing_before_first_resize_witness :
  let events := [Frame; MouseMove 10 20; Frame; Frame] in
  no_resize events /\
  List.length (sim_ctx (run dots (fun _ => 0.5) (sim_init 300 150) events))
  = 3%nat.
Proof.
  cbn zeta.
  assert (Hno : no_resize [Frame; MouseMove 10 20; Frame; Frame]).
  { intros win [H | [H | [H | [H | []]]]]; discriminate H. }
  split; [exact Hno |].
  apply (nothing_before_first_resize dots (fun _ => 0.5) 300 150 _ Hno).
Defined.

(** ** What the initialisers make *)

Lemma unit_scale (t c : R) : 0 <= t < 1 -> 0 <= c -> 0 <= t * c <= c.
Proof.
  intros [H0 H1] Hc.
  assert (0 <= t * c) by now apply Rmult_le_pos.
  assert (0 <= (1 - t) * c) by (apply Rmult_le_pos; lra).
  lra.
Qed.

(** X6: on a canvas of at least 7 by 7 pixels, with random numbers in
    [0, 1), every particle that [initParticles] makes has its whole disc
    inside the canvas, its radius equal to its base radius, and [baseX],
    [baseY] equal to its position. *)
Theorem initParticles_in_bounds ty rnd w h iw k :
  unit_random rnd -> (7 <= w)%Z -> (7 <= h)%Z ->
  Forall (fun p => in_bounds w h p /\ radius p = baseRadius p /\
                   baseX p = x p /\ baseY p = y p)
    (fst (initParticles ty rnd w h iw k)).
Proof.
  intros Hrnd Hw Hh. unfold initParticles.
  apply initParticles_loop_Forall; [| constructor].
  intros i j. apply IZR_le in Hw, Hh.
  unfold in_bounds, makeParticle, newParticle;
    cbn [x y radius baseRadius baseX baseY].
  set (r := match ty with
            | network => rnd j * 2 + 1
            | _ => rnd j * 2.5 + 1
            end).
  assert (Hr : 1 <= r < 3.5)
    by (pose proof (Hrnd j); subst r; destruct ty; lra).
  pose proof (unit_scale (rnd (j + 1)%nat) (IZR w - r * 2) (Hrnd _)).
  pose proof (unit_scale (rnd (j + 2)%nat) (IZR h - r * 2) (Hrnd _)).
  repeat split; try reflexivity; lra.
Qed.

Lemma initParticles_in_bounds_witness :
  unit_random (fun _ => 0.5) /\ (7 <= 800)%Z /\ (7 <= 600)%Z /\
  Forall (fun p => in_bounds 800 600 p /\ radius p = baseRadius p /\
                   baseX p = x p /\ baseY p = y p)
    (fst (initParticles dots (fun _ => 0.5) 800 600 800 0)).
Proof.
  assert (H : unit_random (fun _ => 0.5)) by (intros k; lra).
  assert (Hw : (7 <= 800)%Z) by lia.
  assert (Hh : (7 <= 600)%Z) by lia.
  split; [exact H | split; [exact Hw | split; [exact Hh |]]].
  apply (initParticles_in_bounds dots (fun _ => 0.5) 800 600 800 0 H Hw Hh).
Defined.

Lemma initParticles_loop_nth ty rnd w h n : forall i k ps d,
  (d < n)%nat ->
  nth_error (fst (initParticles_loop ty rnd w h n i k ps)) (List.length ps + d)
  = Some (makeParticle ty rnd w h (i + d) (k + 6 * d)).
Proof.
  induction n as [| n IH]; intros i k ps d Hd; [lia |].
  cbn [initParticles_loop].
  destruct d as [| d].
  - assert (Hkeep : forall m i' k' qs j q,
              nth_error qs j = Some q ->
              nth_error (fst (initParticles_loop ty rnd w h m i' k' qs)) j
              = Some q).
    { induction m as [| m IHm]; intros i' k' qs j q Hq;
        cbn [initParticles_loop]; [exact Hq |].
      apply IHm. rewrite nth_error_app1; [exact Hq |].
      apply nth_error_Some. rewrite Hq. discriminate. }
    rewrite Nat.add_0_r, Nat.mul_0_r, !Nat.add_0_r.
    apply Hkeep. rewrite nth_error_app2 by lia.
    now rewrite Nat.sub_diag.
  - replace (List.length ps + S d)%nat
      with (List.length (ps ++ [makeParticle ty rnd w h i k]) + d)%nat
      by (rewrite length_app; cbn [List.length]; lia).
    rewrite IH by lia.
    do 2 f_equal; lia.
Qed.

Lemma initParticles_loop_rng ty rnd w h n : forall i k ps,
  snd (initParticles_loop ty rnd w h n i k ps) = (k + 6 * n)%nat.
Proof.
  induction n as [| n IH]; intros i k ps; cbn [initParticles_loop].
  - cbn [snd]. lia.
  - rewrite IH. lia.
Qed.

(** X7: [initParticles] makes its [i]-th particle from the six random
    numbers that start at the [6 * i]-th one it reads, colours it purple
    when [i] is a multiple of 3 and cyan otherwise, and has read six
    random numbers per particle when it returns. *)
Theorem initParticles_nth ty rnd w h iw k i :
  (i < particleCount ty iw)%nat ->
  nth_error (fst (initParticles ty rnd w h iw k)) i
  = Some (makeParticle ty rnd w h i (k + 6 * i)) /\
  color (makeParticle ty rnd w h i (k + 6 * i))
  = (if (i mod 3 =? 0)%nat then purple else cyan) /\
  snd (initParticles ty rnd w h iw k) = (k + 6 * particleCount ty iw)%nat.
Proof.
  intros Hi. unfold initParticles. split; [| split].
  - apply (initParticles_loop_nth ty rnd w h _ 0 k [] i Hi).
  - reflexivity.
  - apply initParticles_loop_rng.
Qed.

Lemma initParticles_nth_witness :
  (4 < particleCount network 500)%nat /\
  nth_error (fst (initParticles network (fun _ => 0.5) 500 700 500 0)) 4
  = Some (makeParticle network (fun _ => 0.5) 500 700 4 24).
Proof.
  assert (H : (4 < particleCount network 500)%nat)
    by (unfold particleCount; cbn; lia).
  split; [exact H |].
  apply (initParticles_nth network (fun _ => 0.5) 500 700 500 0 4 H).
Defined.

(** X8: with random numbers in [0, 1) and a canvas height that is not
    negative, [initWaves] makes three waves, coloured by the palette of
    the theme in its order, each with a time modifier in [0.6, 1), base
    amplitude and amplitude in [50, 110), a wavelength in [250, 450) and
    a vertical offset between 0 and a quarter of the canvas height; it
    reads fifteen random numbers. *)
Theorem initWaves_shape rnd h dark k :
  unit_random rnd -> (0 <= h)%Z ->
  let ws := fst (initWaves rnd h dark k) in
  List.length ws = 3%nat /\
  map wave_color ws = wave_colors dark /\
  Forall (fun wave =>
            0.6 <= timeModifier wave < 1 /\
            50 <= baseAmplitude wave < 110 /\
            50 <= amplitude wave < 110 /\
            250 <= wavelength wave < 450 /\
            0 <= yOffset wave <= IZR h / 4) ws /\
  snd (initWaves rnd h dark k) = (k + 15)%nat.
Proof.
  intros Hrnd Hh ws. subst ws. apply IZR_le in Hh.
  assert (Hw : forall j,
    0.6 <= rnd j * 0.4 + 0.6 < 1 /\
    50 <= rnd (j + 1)%nat * 60 + 50 < 110 /\
    50 <= rnd (j + 2)%nat * 60 + 50 < 110 /\
    250 <= rnd (j + 3)%nat * 200 + 250 < 450 /\
    0 <= rnd (j + 4)%nat * IZR h / 4 <= IZR h / 4).
  { intros j.
    pose proof (Hrnd j). pose proof (Hrnd (j + 1)%nat).
    pose proof (Hrnd (j + 2)%nat). pose proof (Hrnd (j + 3)%nat).
    pose proof (unit_scale (rnd (j + 4)%nat) (IZR h) (Hrnd _) Hh).
    repeat split; lra. }
  unfold initWaves.
  destruct dark; cbn [wave_colors initWaves_loop app fst snd List.length map
                      wave_color];
    (split; [reflexivity | split; [reflexivity | split; [| lia]]]);
    repeat (apply Forall_cons;
            [cbn [timeModifier baseAmplitude amplitude wavelength yOffset];
             apply Hw |]);
    apply Forall_nil.
Qed.

Lemma initWaves_shape_witness :
  unit_random (fun _ => 0.5) /\ (0 <= 600)%Z /\
  List.length (fst (initWaves (fun _ => 0.5) 600 true 0)) = 3%nat.
Proof.
  assert (H : unit_random (fun _ => 0.5)) by (intros k; lra).
  assert (Hh : (0 <= 600)%Z) by lia.
  split; [exact H | split; [exact Hh |]].
  apply (initWaves_shape (fun _ => 0.5) 600 true 0 H Hh).
Defined.

(** ** More on the connection lines *)

Lemma opacity_zero w : opacity w 0 = 1.
Proof. unfold opacity, Rdiv. rewrite Rmult_0_l. lra. Qed.

(** X9: on a canvas of positive width [connect] joins every particle to
    itself: the inner loop starts at [b = a], the distance is 0, and a
    line of no length and opacity 1 is painted at the particle. *)
Theorem connect_self_line w m ps pa :
  (0 < w)%Z -> In pa ps ->
  In (strokeLine (lineColor m pa) 1 1.2 (x pa) (y pa) (x pa) (y pa))
     (connect w m ps).
Proof.
  intros Hw Hin. apply IZR_lt in Hw.
  apply In_nth_error in Hin as [a Ha].
  apply connect_In. exists a, a, pa, pa.
  split; [lia | split; [exact Ha | split; [exact Ha |]]].
  apply connect_pair_In.
  assert (H0 : hypot (x pa - x pa) (y pa - y pa) = 0)
    by (apply hypot_eq; lra).
  rewrite H0, opacity_zero. split; [unfold connectDistance; lra | reflexivity].
Qed.

Lemma connect_self_line_witness :
  let pa := newParticle 10 300 0 0 2 purple 0.5 in
  (0 < 800)%Z /\ In pa [pa] /\
  In (strokeLine line_cyan 1 1.2 10 300 10 300) (connect 800 mouse_init [pa]).
Proof.
  cbn zeta.
  assert (Hw : (0 < 800)%Z) by reflexivity.
  assert (Hin : In (newParticle 10 300 0 0 2 purple 0.5)
                  [newParticle 10 300 0 0 2 purple 0.5]) by (left; reflexivity).
  split; [exact Hw | split; [exact Hin |]].
  apply (connect_self_line 800 mouse_init _ _ Hw Hin).
Defined.

(** X10: on a canvas whose width is zero (or less) [connect] paints
    nothing, whatever the particles and the pointer: no distance is
    below [canvas.width / 8]. *)
Theorem connect_without_width w m ps :
  (w <= 0)%Z -> connect w m ps = [].
Proof.
  intros Hw. apply IZR_le in Hw.
  destruct (connect w m ps) as [| l rest] eqn:E; [reflexivity |].
  assert (Hl : In l (connect w m ps)) by (rewrite E; now left).
  apply connect_In in Hl as (a & b & pa & pb & _ & _ & _ & Hl).
  apply connect_pair_In in Hl as [Hd _].
  pose proof (sqrt_pos ((x pa - x pb) * (x pa - x pb)
                        + (y pa - y pb) * (y pa - y pb))) as Hpos.
  unfold hypot, connectDistance in Hd. lra.
Qed.

Lemma connect_without_width_witness :
  (0 <= 0)%Z /\
  connect 0 mouse_init [newParticle 10 300 0 0 2 purple 0.5] = [].
Proof.
  assert (Hw : (0 <= 0)%Z) by reflexivity.
  split; [exact Hw |].
  apply (connect_without_width 0 mouse_init _ Hw).
Defined.

(** X11: everything [connect] paints is a line of width 1.2 between two
    particles of the array, with an opacity above 0 and at most 1 and one
    of the two colour prefixes. *)
Theorem connect_paints_lines w m ps op :
  In op (connect w m ps) ->
  exists c o pa pb,
    op = strokeLine c o 1.2 (x pa) (y pa) (x pb) (y pb) /\
    In pa ps /\ In pb ps /\
    0 < o <= 1 /\ (c = line_purple \/ c = line_cyan).
Proof.
  intros Hop.
  apply connect_In in Hop as (a & b & pa & pb & _ & Ea & Eb & Hop).
  apply connect_pair_In in Hop as [Hd ->].
  exists (lineColor m pa), (opacity w (hypot (x pa - x pb) (y pa - y pb))), pa, pb.
  split; [reflexivity |].
  split; [now apply nth_error_In with a |].
  split; [now apply nth_error_In with b |].
  split.
  - pose proof (sqrt_pos ((x pa - x pb) * (x pa - x pb)
                          + (y pa - y pb) * (y pa - y pb))) as Hpos.
    fold (hypot (x pa - x pb) (y pa - y pb)) in Hpos.
    set (d := hypot (x pa - x pb) (y pa - y pb)) in *.
    unfold opacity. set (t := connectDistance w) in *.
    assert (Ht : 0 < t) by lra.
    assert (Hi : 0 < / t) by now apply Rinv_0_lt_compat.
    assert (0 <= d * / t) by (apply Rmult_le_pos; lra).
    assert (d * / t < t * / t) by now apply Rmult_lt_compat_r.
    rewrite Rinv_r in * by lra. unfold Rdiv. lra.
  - unfold lineColor. destruct (pointer_near m pa); [now left | now right].
Qed.

Lemma connect_paints_lines_witness :
  let pa := newParticle 10 300 0 0 2 purple 0.5 in
  let op := strokeLine (lineColor mouse_init pa) (opacity 800 0) 1.2
              10 300 10 300 in
  In op (connect 800 mouse_init [pa]) /\
  exists c o qa qb,
    op = strokeLine c o 1.2 (x qa) (y qa) (x qb) (y qb) /\ 0 < o <= 1.
Proof.
  cbn zeta.
  assert (Hin : In (strokeLine
                      (lineColor mouse_init (newParticle 10 300 0 0 2 purple 0.5))
                      (opacity 800 0) 1.2 10 300 10 300)
                  (connect 800 mouse_init [newParticle 10 300 0 0 2 purple 0.5])).
  { apply connect_In.
    exists 0%nat, 0%nat, (newParticle 10 300 0 0 2 purple 0.5),
      (newParticle 10 300 0 0 2 purple 0.5).
    split; [lia | split; [reflexivity | split; [reflexivity |]]].
    apply connect_pair_In. cbn [newParticle x y].
    rewrite (hypot_eq _ _ 0) by lra.
    split; [unfold connectDistance; lra | reflexivity]. }
  split; [exact Hin |].
  destruct (connect_paints_lines 800 mouse_init _ _ Hin)
    as (c & o & qa & qb & Hop & _ & _ & Ho & _).
  exists c, o, qa, qb. split; [exact Hop | exact Ho].
Defined.

Lemma flat_map_length_le {A B : Type} (f : A -> list B) (l : list A) :
  (forall a, List.length (f a) <= 1)%nat ->
  (List.length (flat_map f l) <= List.length l)%nat.
Proof.
  intros Hf; induction l as [| a l IH]; cbn [flat_map List.length].
  - lia.
  - rewrite length_app. specialize (Hf a). lia.
Qed.

Lemma flat_map_triangle {B : Type} (g : nat -> list B) (n : nat) :
  (forall a, List.length (g a) <= n - a)%nat ->
  forall len start, (start + len <= n)%nat ->
    (2 * List.length (flat_map g (seq start len)) + len * len
     <= len * (2 * (n - start) + 1))%nat.
Proof.
  intros Hg; induction len as [| len IH]; intros start Hle;
    cbn [seq flat_map List.length].
  - lia.
  - rewrite length_app. specialize (IH (S start)). specialize (Hg start).
    assert (IH' := IH ltac:(lia)).
    replace (n - S start)%nat with (n - start - 1)%nat in IH' by lia.
    nia.
Qed.

(** X12: [connect] paints at most [n * (n + 1) / 2] lines for [n]
    particles, one for each pair of indices [a <= b] at most. *)
Theorem connect_count w m ps :
  (2 * List.length (connect w m ps)
   <= List.length ps * (List.length ps + 1))%nat.
Proof.
  unfold connect.
  pose proof (flat_map_triangle
    (fun a => flat_map (fun b =>
       match nth_error ps a, nth_error ps b with
       | Some pa, Some pb => connect_pair w m pa pb
       | _, _ => []
       end) (seq a (List.length ps - a)))
    (List.length ps)) as H.
  specialize (H ltac:(
    intros a; etransitivity;
    [apply flat_map_length_le; intros b;
     destruct (nth_error ps a), (nth_error ps b); cbn [List.length];
     try lia; unfold connect_pair; destruct (ltb _ _); cbn [List.length]; lia
    | rewrite length_seq; lia])).
  specialize (H (List.length ps) 0%nat ltac:(lia)).
  nia.
Qed.

(** ** More on the pointer *)

Lemma hypot_scale (a b c : R) :
  0 <= c -> hypot (a * c) (b * c) = c * hypot a b.
Proof.
  intros Hc. unfold hypot.
  replace (a * c * (a * c) + b * c * (b * c))
    with ((c * c) * (a * a + b * b)) by ring.
  rewrite sqrt_mult_alt by nra.
  now rewrite sqrt_square.
Qed.

(** X13: in network mode, a particle that the velocity step leaves at a
    distance [d] below [mouse.radius] from the pointer ends the update at
    distance [21/20 * d] from it, pushed by [d / 20]: within reach, the
    farther the particle, the longer the push. *)
Theorem repulsion_distance w h m mx my p :
  mouse_x m = Some mx -> mouse_y m = Some my ->
  let p1 := advance w h p in
  let q := update network w h m p in
  let d := hypot (mx - x p1) (my - y p1) in
  d < mouse_radius m ->
  hypot (mx - x q) (my - y q) = 21 / 20 * d /\
  hypot (x q - x p1) (y q - y p1) = d / 20.
Proof.
  intros Hx Hy p1 q d Hd. subst q.
  rewrite (update_present _ _ _ _ _ _ _ Hx Hy). fold p1.
  unfold interact. fold d. apply ltb_true in Hd. rewrite Hd. cbn [x y].
  split.
  - replace (mx - (x p1 - (mx - x p1) / 20)) with ((mx - x p1) * (21 / 20))
      by field.
    replace (my - (y p1 - (my - y p1) / 20)) with ((my - y p1) * (21 / 20))
      by field.
    rewrite hypot_scale by lra. reflexivity.
  - replace (x p1 - (mx - x p1) / 20 - x p1) with (- (mx - x p1) * (1 / 20))
      by field.
    replace (y p1 - (my - y p1) / 20 - y p1) with (- (my - y p1) * (1 / 20))
      by field.
    rewrite hypot_scale by lra.
    unfold hypot.
    replace (- (mx - x p1) * - (mx - x p1) + - (my - y p1) * - (my - y p1))
      with ((mx - x p1) * (mx - x p1) + (my - y p1) * (my - y p1)) by ring.
    fold (hypot (mx - x p1) (my - y p1)). fold d. field.
Qed.

Lemma repulsion_distance_witness :
  let m := handleMouseMove 400 300 mouse_init in
  let p := newParticle 410 300 0 0 2 purple 0.5 in
  hypot (400 - x (advance 800 600 p)) (300 - y (advance 800 600 p))
    < mouse_radius m /\
  hypot (400 - x (update network 800 600 m p))
        (300 - y (update network 800 600 m p)) = 21 / 20 * 10.
Proof.
  cbn zeta.
  assert (Hd0 : hypot (400 - x (advance 800 600 (newParticle 410 300 0 0 2 purple 0.5)))
                  (300 - y (advance 800 600 (newParticle 410 300 0 0 2 purple 0.5)))
                = 10).
  { unfold_update. decide_ltb. cbn [orb]. apply hypot_eq; lra. }
  assert (Hd : hypot (400 - x (advance 800 600 (newParticle 410 300 0 0 2 purple 0.5)))
                 (300 - y (advance 800 600 (newParticle 410 300 0 0 2 purple 0.5)))
               < mouse_radius (handleMouseMove 400 300 mouse_init)).
  { rewrite Hd0. cbn. lra. }
  split; [exact Hd |].
  rewrite <- Hd0.
  apply (repulsion_distance 800 600 (handleMouseMove 400 300 mouse_init)
           400 300 _ eq_refl eq_refl Hd).
Defined.

(** ** More on the waves *)

Lemma step_time ty rnd s e :
  sim_time (step ty rnd s e) =
  match ty, e with
  | waves, Frame => sim_time s + 0.015
  | _, _ => sim_time s
  end.
Proof.
  destruct e as [cx cy | win |]; cbn [step].
  - now destruct ty.
  - unfold resizeCanvas.
    destruct ty;
      repeat match goal with
             | |- context [let (_, _) := ?e in _] => destruct e
             end; reflexivity.
  - unfold animate, update_all, drawWaves.
    destruct ty; try reflexivity.
    now destruct (drawWaves_from _ _ _ _ _ _).
Qed.

(** X14: the clock [time] moves only in waves mode and only on animation
    frames, by 0.015 each: after any events it has advanced by 0.015
    times the number of frames among them; in network and dots modes it
    never moves. *)
Theorem clock_counts_frames ty rnd events s :
  sim_time (run ty rnd s events) =
  match ty with
  | waves => sim_time s + 0.015 * INR (count_frames events)
  | _ => sim_time s
  end.
Proof.
  unfold run. revert s.
  induction events as [| e rest IH]; intros s; cbn [fold_left count_frames].
  - destruct ty; cbn [INR]; lra.
  - rewrite IH, step_time.
    destruct ty, e; try reflexivity; try rewrite S_INR; lra.
Qed.



Lemma drawWaves_from_nth w h m t ws : forall index i,
  nth_error (fst (drawWaves_from w h m index t ws)) i
  = option_map (wave_interact h m (index + i)) (nth_error ws i).
Proof.
  induction ws as [| wave rest IH]; intros index i; cbn [drawWaves_from].
  - cbn [fst]. now destruct i.
  - specialize (IH (S index)).
    destruct (drawWaves_from w h m (S index) t rest) as [rest1 ops].
    cbn [fst] in *. destruct i as [| i]; cbn [nth_error option_map].
    + now rewrite Nat.add_0_r.
    + rewrite IH. now rewrite Nat.add_succ_r.
Qed.

Lemma wave_interact_twice h m index wave :
  wave_interact h m index (wave_interact h m index wave)
  = wave_interact h m index wave.
Proof. unfold wave_interact. now destruct (mouse_y m). Qed.

(** X16: [drawWaves] derives the amplitudes from the base amplitudes and
    does not accumulate them: with the canvas and the pointer unchanged,
    a second [drawWaves] leaves the waves as the first one left them;
    and no [drawWaves] changes the number of waves or any field of a
    wave other than its amplitude. *)
Theorem drawWaves_idempotent w h m t t' ws :
  let ws1 := drawWaves_waves w h m t ws in
  drawWaves_waves w h m t' ws1 = ws1 /\
  List.length ws1 = List.length ws /\
  map (fun wv => (timeModifier wv, baseAmplitude wv, wavelength wv,
                  wave_color wv, yOffset wv)) ws1
  = map (fun wv => (timeModifier wv, baseAmplitude wv, wavelength wv,
                    wave_color wv, yOffset wv)) ws.
Proof.
  cbn zeta. rewrite !drawWaves_waves_eq.
  assert (G : forall l index tt tt',
    fst (drawWaves_from w h m index tt'
           (fst (drawWaves_from w h m index tt l)))
    = fst (drawWaves_from w h m index tt l) /\
    List.length (fst (drawWaves_from w h m index tt l)) = List.length l /\
    map (fun wv => (timeModifier wv, baseAmplitude wv, wavelength wv,
                    wave_color wv, yOffset wv))
        (fst (drawWaves_from w h m index tt l))
    = map (fun wv => (timeModifier wv, baseAmplitude wv, wavelength wv,
                      wave_color wv, yOffset wv)) l).
  { induction l as [| wave rest IH]; intros index tt tt';
      cbn [drawWaves_from]; [now repeat split |].
    specialize (IH (S index) tt tt').
    destruct (drawWaves_from w h m (S index) tt rest) as [rest1 ops].
    cbn [fst] in *. cbn [drawWaves_from].
    destruct (drawWaves_from w h m (S index) tt' rest1) as [rest2 ops2].
    cbn [fst map List.length] in *.
    destruct IH as (IH1 & IH2 & IH3).
    rewrite wave_interact_twice, IH1, IH2, IH3.
    repeat split.
    f_equal. unfold wave_interact. now destruct (mouse_y m). }
  apply G.
Qed.

(** X17: with the pointer's [y] between 0 and the height of a canvas of
    positive height, [drawWaves] leaves the amplitude of the wave of
    index [i] within [20 * (i + 1)] of its base amplitude. *)
Theorem amplitude_within_reach w h m my t ws i wave :
  (0 < h)%Z -> mouse_y m = Some my -> 0 <= my <= IZR h ->
  nth_error (drawWaves_waves w h m t ws) i = Some wave ->
  Rabs (amplitude wave - baseAmplitude wave) <= 20 * (INR i + 1).
Proof.
  intros Hh Hm Hmy Hn. apply IZR_lt in Hh.
  rewrite drawWaves_waves_eq, drawWaves_from_nth in Hn.
  destruct (nth_error ws i) as [wave0 |]; [| discriminate].
  cbn [option_map Nat.add] in Hn. injection Hn as <-.
  unfold wave_interact. rewrite Hm. cbn [amplitude baseAmplitude].
  set (f := my / IZR h * 2 - 1).
  assert (Hf : - 1 <= f <= 1).
  { subst f. unfold Rdiv.
    assert (Hi : 0 < / IZR h) by now apply Rinv_0_lt_compat.
    assert (0 <= my * / IZR h) by (apply Rmult_le_pos; lra).
    assert (my * / IZR h <= IZR h * / IZR h)
      by (apply Rmult_le_compat_r; lra).
    rewrite Rinv_r in * by lra. lra. }
  replace (baseAmplitude wave0 + f * 20 * (INR i + 1) - baseAmplitude wave0)
    with (f * (20 * (INR i + 1))) by ring.
  pose proof (pos_INR i).
  apply Rabs_le. split; nra.
Qed.

Lemma amplitude_within_reach_witness :
  let wave := {| timeModifier := 0.8; baseAmplitude := 80; amplitude := 95;
                 wavelength := 350; wave_color := "rgba(123, 62, 240, 0.4)";
                 yOffset := 75 |} in
  let m := handleMouseMove 400 0 mouse_init in
  let wave1 := wave_interact 600 m 0 wave in
  (0 < 600)%Z /\ mouse_y m = Some 0 /\ 0 <= 0 <= 600 /\
  nth_error (drawWaves_waves 800 600 m 0 [wave]) 0 = Some wave1 /\
  Rabs (amplitude wave1 - baseAmplitude wave1) <= 20 * (INR 0 + 1).
Proof.
  cbn zeta.
  assert (Hh : (0 < 600)%Z) by reflexivity.
  assert (Hmy : 0 <= 0 <= 600) by lra.
  assert (Hn : nth_error
                 (drawWaves_waves 800 600 (handleMouseMove 400 0 mouse_init) 0
                    [{| timeModifier := 0.8; baseAmplitude := 80; amplitude := 95;
                        wavelength := 350;
                        wave_color := "rgba(123, 62, 240, 0.4)";
                        yOffset := 75 |}]) 0
               = Some (wave_interact 600 (handleMouseMove 400 0 mouse_init) 0
                         {| timeModifier := 0.8; baseAmplitude := 80;
                            amplitude := 95; wavelength := 350;
                            wave_color := "rgba(123, 62, 240, 0.4)";
                            yOffset := 75 |})).
  { rewrite drawWaves_waves_eq, drawWaves_from_nth. reflexivity. }
  split; [exact Hh | split; [reflexivity | split; [exact Hmy | split; [exact Hn |]]]].
  apply (amplitude_within_reach 800 600 (handleMouseMove 400 0 mouse_init) 0 0
           _ 0 _ Hh eq_refl Hmy Hn).
Defined.

(** X18: [mouse] is a latch on the last [mousemove]: after any events it
    holds the coordinates of the last [mousemove] among them, verbatim,
    or is as it was when there is none; no frame and no resize writes it,
    and its radius never changes. *)
Theorem mouse_is_last_move ty rnd events s :
  sim_mouse (run ty rnd s events) =
  match last_move events with
  | Some (cx, cy) => handleMouseMove cx cy (sim_mouse s)
  | None => sim_mouse s
  end /\
  mouse_radius (sim_mouse (run ty rnd s events)) = mouse_radius (sim_mouse s).
Proof.
  unfold run. revert s.
  induction events as [| e rest IH]; intros s; cbn [fold_left last_move].
  - now split.
  - destruct (IH (step ty rnd s e)) as [IH1 IH2].
    assert (Hr : mouse_radius (sim_mouse (step ty rnd s e))
                 = mouse_radius (sim_mouse s)).
    { destruct e as [cx cy | win |].
      - reflexivity.
      - now rewrite step_keeps_mouse by discriminate.
      - now rewrite step_keeps_mouse by discriminate. }
    split; [| now rewrite IH2].
    rewrite IH1. destruct (last_move rest) as [[cx cy] |].
    + unfold handleMouseMove. now rewrite Hr.
    + destruct e as [cx cy | win |].
      * reflexivity.
      * now rewrite step_keeps_mouse by discriminate.
      * now rewrite step_keeps_mouse by discriminate.
Qed.

(** ** The effect and its clean-up *)

Lemma deliver_after_cleanup ty rnd e b :
  mousemove_listener e = false -> resize_listener e = false ->
  frame_requested e = false ->
  (forall win, b <> TimeoutDue win) ->
  let e' := deliver ty rnd e b in
  eff_sim e' = eff_sim e /\
  mousemove_listener e' = false /\ resize_listener e' = false /\
  frame_requested e' = false.
Proof.
  intros Hm Hr Hf Hb. destruct b as [cx cy | win | | win |]; cbn [deliver].
  - rewrite Hm. now repeat split.
  - rewrite Hr. now repeat split.
  - rewrite Hf. now repeat split.
  - now destruct (Hb win).
  - now repeat split.
Qed.

(** X19: once the clean-up has run, no pointer move, window resize or
    display refresh reaches the effect: whatever happens next, short of
    the delayed [resizeCanvas], the particles, the waves, the clock, the
    pointer and what has been painted stay as the clean-up found them,
    and no frame is requested again. *)
Theorem cleanup_silences ty rnd e bs :
  no_timeout bs ->
  let e' := deliver_all ty rnd (deliver ty rnd e CleanUp) bs in
  eff_sim e' = eff_sim e /\ frame_requested e' = false /\
  mousemove_listener e' = false /\ resize_listener e' = false.
Proof.
  intros Hno. cbn zeta. unfold deliver_all.
  assert (G : forall l e0,
    (forall win, ~ In (TimeoutDue win) l) ->
    mousemove_listener e0 = false -> resize_listener e0 = false ->
    frame_requested e0 = false ->
    eff_sim (fold_left (deliver ty rnd) l e0) = eff_sim e0 /\
    frame_requested (fold_left (deliver ty rnd) l e0) = false /\
    mousemove_listener (fold_left (deliver ty rnd) l e0) = false /\
    resize_listener (fold_left (deliver ty rnd) l e0) = false).
  { induction l as [| b rest IH]; intros e0 Hn Hm Hr Hf; cbn [fold_left].
    - now repeat split.
    - destruct (deliver_after_cleanup ty rnd e0 b Hm Hr Hf)
        as (Hs & Hm' & Hr' & Hf').
      + intros win ->. apply (Hn win). now left.
      + destruct (IH (deliver ty rnd e0 b)) as (A & B & C & D);
          try assumption.
        * intros win Hin. apply (Hn win). now right.
        * rewrite A, Hs. now repeat split. }
  apply (G bs (deliver ty rnd e CleanUp) Hno); reflexivity.
Qed.

Lemma cleanup_silences_witness :
  let bs := [PointerMoves 10 20; RefreshDue;
             WindowResizes {| innerWidth := 500; innerHeight := 700;
                              parentHeight := None; isDarkMode := false |};
             RefreshDue] in
  exists e,
    mount network true true 300 150 = Some e /\ no_timeout bs /\
    eff_sim (deliver_all network (fun _ => 0.5)
               (deliver network (fun _ => 0.5) e CleanUp) bs)
    = eff_sim e.
Proof.
  cbn zeta. eexists.
  assert (Hno : no_timeout
                  [PointerMoves 10 20; RefreshDue;
                   WindowResizes {| innerWidth := 500; innerHeight := 700;
                                    parentHeight := None; isDarkMode := false |};
                   RefreshDue]).
  { intros win [H | [H | [H | [H | []]]]]; discriminate H. }
  split; [reflexivity | split; [exact Hno |]].
  apply (cleanup_silences network (fun _ => 0.5) _ _ Hno).
Defined.

(** X20: the clean-up does not cancel the delayed [resizeCanvas] of the
    set-up.  When the effect is cleaned up before the 100 ms have passed,
    [resizeCanvas] still runs afterwards, resizes the canvas and, in
    network and dots modes, fills the particle array; it paints nothing
    and no frame is requested, so the particles are never drawn. *)
Theorem timeout_outlives_cleanup ty rnd w h e win :
  mount ty true true w h = Some e ->
  let e' := deliver ty rnd (deliver ty rnd e CleanUp) (TimeoutDue win) in
  eff_sim e' = resizeCanvas ty rnd win (eff_sim e) /\
  sim_width (eff_sim e') = innerWidth win /\
  (ty <> waves ->
   List.length (sim_particles (eff_sim e')) = particleCount ty (innerWidth win)) /\
  sim_ctx (eff_sim e') = sim_ctx (eff_sim e) /\
  frame_requested e' = false /\ timeout_pending e' = false.
Proof.
  intros Hm. cbn [mount] in Hm. injection Hm as <-.
  cbn [deliver timeout_pending eff_sim frame_requested].
  split; [reflexivity |].
  split; [| split; [| split; [| split; reflexivity]]].
  - unfold resizeCanvas.
    destruct ty;
      repeat match goal with
             | |- context [let (_, _) := ?e in _] => destruct e
             end; reflexivity.
  - intros Hty. rewrite resizeCanvas_particles by exact Hty.
    apply initParticles_length.
  - unfold resizeCanvas.
    destruct ty;
      repeat match goal with
             | |- context [let (_, _) := ?e in _] => destruct e
             end; reflexivity.
Qed.

Lemma timeout_outlives_cleanup_witness :
  let win := {| innerWidth := 1200; innerHeight := 700;
                parentHeight := Some 600%Z; isDarkMode := false |} in
  exists e,
    mount network true true 300 150 = Some e /\
    List.length
      (sim_particles
         (eff_sim (deliver network (fun _ => 0.5)
                     (deliver network (fun _ => 0.5) e CleanUp)
                     (TimeoutDue win)))) = 80%nat.
Proof.
  cbn zeta. eexists. split; [reflexivity |].
  refine (proj1 (proj2 (proj2
    (timeout_outlives_cleanup network (fun _ => 0.5) 300 150 _
       {| innerWidth := 1200; innerHeight := 700;
          parentHeight := Some 600%Z; isDarkMode := false |} eq_refl))) _).
  discriminate.
Defined.

(** X21: until the clean-up runs the loop keeps itself going: after
    mounting and anything that happens short of the clean-up, the next
    frame is requested and both listeners are registered. *)
Theorem loop_keeps_running ty rnd w h e bs :
  mount ty true true w h = Some e ->
  no_cleanup bs ->
  let e' := deliver_all ty rnd e bs in
  frame_requested e' = true /\
  mousemove_listener e' = true /\ resize_listener e' = true.
Proof.
  intros Hm Hno. cbn zeta. unfold deliver_all, no_cleanup in *.
  assert (G : forall l e0,
    ~ In CleanUp l ->
    frame_requested e0 = true -> mousemove_listener e0 = true ->
    resize_listener e0 = true ->
    frame_requested (fold_left (deliver ty rnd) l e0) = true /\
    mousemove_listener (fold_left (deliver ty rnd) l e0) = true /\
    resize_listener (fold_left (deliver ty rnd) l e0) = true).
  { induction l as [| b rest IH]; intros e0 Hn Hf Hmm Hr; cbn [fold_left].
    - now repeat split.
    - apply IH.
      + intros Hin. apply Hn. now right.
      + destruct b; cbn [deliver]; try rewrite Hf; try rewrite Hmm;
          try rewrite Hr; try reflexivity; try assumption.
        * now destruct (timeout_pending e0).
        * exfalso. apply Hn. now left.
      + destruct b; cbn [deliver]; try rewrite Hf; try rewrite Hmm;
          try rewrite Hr; try reflexivity; try assumption.
        * now destruct (timeout_pending e0).
        * exfalso. apply Hn. now left.
      + destruct b; cbn [deliver]; try rewrite Hf; try rewrite Hmm;
          try rewrite Hr; try reflexivity; try assumption.
        * now destruct (timeout_pending e0).
        * exfalso. apply Hn. now left. }
  cbn [mount] in Hm. injection Hm as <-.
  apply G; [exact Hno | reflexivity | reflexivity | reflexivity].
Qed.

Lemma loop_keeps_running_witness :
  let bs := [RefreshDue; PointerMoves 10 20; RefreshDue] in
  exists e,
    mount dots true true 300 150 = Some e /\ no_cleanup bs /\
    frame_requested (deliver_all dots (fun _ => 0.5) e bs) = true.
Proof.
  cbn zeta. eexists.
  assert (Hno : no_cleanup [RefreshDue; PointerMoves 10 20; RefreshDue]).
  { intros [H | [H | [H | []]]]; discriminate H. }
  split; [reflexivity | split; [exact Hno |]].
  apply (loop_keeps_running dots (fun _ => 0.5) 300 150 _ _ eq_refl Hno).
Defined.

(** ** The decay of a magnified dot *)




(** ** The size of the canvas *)

Lemma resizeCanvas_size ty rnd win s :
  sim_width (resizeCanvas ty rnd win s) = innerWidth win /\
  sim_height (resizeCanvas ty rnd win s) =
    match parentHeight win with
    | Some ph => if (0 <? ph)%Z then ph else innerHeight win
    | None => innerHeight win
    end.
Proof.
  unfold resizeCanvas.
  destruct ty;
    repeat match goal with
           | |- context [let (_, _) := ?e in _] => destruct e
           end; split; reflexivity.
Qed.

Lemma step_size ty rnd s e :
  (forall win, e <> Resize win) ->
  sim_width (step ty rnd s e) = sim_width s /\
  sim_height (step ty rnd s e) = sim_height s.
Proof.
  intros He. destruct e as [cx cy | win |]; cbn [step].
  - now split.
  - now destruct (He win).
  - unfold animate, update_all.
    destruct ty; try (split; reflexivity).
    destruct (drawWaves _ _ _ _ _) as [[t ws] ops]. split; reflexivity.
Qed.

(** X23: the canvas never loses its height: started on a canvas of
    positive height, after any events whose resizes all find a window of
    positive height, the canvas height is positive, whatever height the
    parent element reports (none, zero or negative ones fall back to the
    window's). *)
Theorem canvas_height_positive ty rnd w0 h0 events :
  (0 < h0)%Z -> tall_windows events ->
  (0 < sim_height (run ty rnd (sim_init w0 h0) events))%Z.
Proof.
  intros Hh Htall.
  assert (G : forall evs s,
    (forall win, In (Resize win) evs -> (0 < innerHeight win)%Z) ->
    (0 < sim_height s)%Z -> (0 < sim_height (run ty rnd s evs))%Z).
  { unfold run. induction evs as [| e rest IH]; intros s Ht Hs;
      cbn [fold_left]; [exact Hs |].
    apply IH; [intros win Hin; apply Ht; now right |].
    destruct e as [cx cy | win |].
    - exact Hs.
    - cbn [step]. destruct (resizeCanvas_size ty rnd win s) as [_ ->].
      assert (Hwin : (0 < innerHeight win)%Z) by (apply Ht; now left).
      destruct (parentHeight win) as [ph |]; [| exact Hwin].
      destruct (0 <? ph)%Z eqn:E; [now apply Z.ltb_lt | exact Hwin].
    - destruct (step_size ty rnd s Frame) as [_ ->]; [discriminate | exact Hs]. }
  apply G; assumption.
Qed.

Lemma canvas_height_positive_witness :
  let events := [Frame;
                 Resize {| innerWidth := 500; innerHeight := 700;
                           parentHeight := Some 0%Z; isDarkMode := false |};
                 Frame] in
  (0 < 150)%Z /\ tall_windows events /\
  (0 < sim_height (run waves (fun _ => 0.5%R) (sim_init 300 150) events))%Z.
Proof.
  cbn zeta.
  assert (Hh : (0 < 150)%Z) by reflexivity.
  assert (Ht : tall_windows
                 [Frame;
                  Resize {| innerWidth := 500; innerHeight := 700;
                            parentHeight := Some 0%Z; isDarkMode := false |};
                  Frame]).
  { intros win [H | [H | [H | []]]]; try discriminate H.
    injection H as <-. reflexivity. }
  split; [exact Hh | split; [exact Ht |]].
  apply (canvas_height_positive waves (fun _ => 0.5) 300 150 _ Hh Ht).
Defined.

(** ** A particle that sticks out too far *)


